(** * The flight normalisation and presentation pipeline of [aiagent.py]

    A shallow embedding of [parse_flights], [format_flight_for_humans],
    [get_cheapest_flight] and [simplify_parsed_flights].

    The raw payload is the Python object that [response.json()] returns, so
    it is modelled as a dynamically typed [value]; every subscript, [len],
    iteration and table lookup can raise, exactly where Python raises.  The
    dictionaries that the code builds itself with a fixed set of keys (the
    normalised and the compressed records) are Rocq records.

    Python code can read the wall clock or the process environment at any
    point, so computations live in [py], an error monad that also carries
    the ambient state.  Text is taken to be ASCII: a Rocq [string] is a
    sequence of bytes, a Python [str] a sequence of code points. *)

From Stdlib Require Import ZArith QArith Qround Qabs List String Ascii Bool Lia.
From Stdlib Require Import DecimalString Lqa.
Import ListNotations.

#[local] Set Warnings "-register-all,-notation-for-abbreviation".

Local Open Scope string_scope.
Local Open Scope list_scope.
Local Open Scope Z_scope.

Infix "+++" := String.append (right associativity, at level 60).

(** ** Python values *)

(** A value parsed from JSON.  [VFloat q] is a finite float, given by the
    rational it denotes; [VDict] lists the entries of an object, whose keys
    are strings. *)
Inductive value : Type :=
| VNone
| VBool (b : bool)
| VInt (z : Z)
| VFloat (q : Q)
| VStr (s : string)
| VList (l : list value)
| VDict (d : list (string * value)).

(** The exceptions the modelled code can raise. *)
Inductive exn : Type :=
| KeyError (key : value)
| IndexError
| TypeError
| ValueError
| AttributeError
| OverflowError.

Inductive result (A : Type) : Type :=
| Ok (a : A)
| Err (e : exn).
Arguments Ok {A} a.
Arguments Err {A} e.

(** ** Dates and times *)

Record datetime : Type := mk_datetime {
  year : nat; month : nat; day : nat;
  hour : nat; minute : nat; second : nat; microsecond : nat;
  utcoffset : option Z
}.

(** ** Ambient state and the [py] monad *)

(** What a Python program can read without being handed it. *)
Record ambient : Type := mk_ambient {
  wall_clock : datetime;
  environ : string -> option string
}.

Definition py (A : Type) : Type := ambient -> result A.

Definition ret {A} (x : A) : py A := fun _ => Ok x.
Definition raise {A} (e : exn) : py A := fun _ => Err e.
Definition lift {A} (r : result A) : py A := fun _ => r.
Definition bind {A B} (m : py A) (k : A -> py B) : py B :=
  fun w => match m w with
           | Ok x => k x w
           | Err e => Err e
           end.

Declare Scope py_scope.
Delimit Scope py_scope with py.
Notation "x <- m ;; k" := (bind m (fun x => k))
  (at level 61, m at next level, right associativity) : py_scope.
Local Open Scope py_scope.

(** [datetime.now()] and [os.getenv], the two ambient reads of the script. *)
Definition datetime_now : py datetime := fun w => Ok (wall_clock w).
Definition os_getenv (name : string) : py (option string) :=
  fun w => Ok (environ w name).

(** [for x in xs: s = body(x, s)], stopping at the first exception. *)
Fixpoint for_each {A S} (xs : list A) (body : A -> S -> py S) (s : S) : py S :=
  match xs with
  | [] => ret s
  | x :: rest => s' <- body x s ;; for_each rest body s'
  end.

(** ** Primitive operations on values *)

Fixpoint assoc (k : string) (d : list (string * value)) : option value :=
  match d with
  | [] => None
  | (k', v) :: rest => if String.eqb k' k then Some v else assoc k rest
  end.

(** The number a [bool], [int] or [float] denotes. *)
Definition as_number (v : value) : option Q :=
  match v with
  | VBool b => Some (inject_Z (if b then 1 else 0))
  | VInt z => Some (inject_Z z)
  | VFloat q => Some q
  | _ => None
  end.

Definition is_number (v : value) : bool :=
  match as_number v with Some _ => true | None => false end.

Definition hashable (v : value) : bool :=
  match v with
  | VList _ | VDict _ => false
  | _ => true
  end.

(** [a == b].  Numbers compare by value across [bool], [int] and [float];
    dictionaries compare entry by entry regardless of order. *)
Fixpoint py_eq (a b : value) {struct a} : bool :=
  match a, b with
  | VNone, VNone => true
  | VStr s, VStr t => String.eqb s t
  | VList l1, VList l2 =>
      (fix go (l1 l2 : list value) : bool :=
         match l1, l2 with
         | [], [] => true
         | x :: xs, y :: ys => py_eq x y && go xs ys
         | _, _ => false
         end) l1 l2
  | VDict d1, VDict d2 =>
      Nat.eqb (List.length d1) (List.length d2) &&
      (fix go (d1 : list (string * value)) : bool :=
         match d1 with
         | [] => true
         | (k, v) :: rest =>
             match assoc k d2 with
             | Some w => py_eq v w
             | None => false
             end && go rest
         end) d1
  | _, _ =>
      match as_number a, as_number b with
      | Some x, Some y => Qeq_bool x y
      | _, _ => false
      end
  end.

Definition Qlt_bool (x y : Q) : bool := negb (Qle_bool y x).

(** [a < b]: numbers by value, strings and lists lexicographically,
    [TypeError] for anything else. *)
Fixpoint py_lt (a b : value) {struct a} : result bool :=
  match a, b with
  | VStr s, VStr t => Ok (String.ltb s t)
  | VList l1, VList l2 =>
      (fix go (l1 l2 : list value) : result bool :=
         match l1, l2 with
         | [], [] => Ok false
         | [], _ :: _ => Ok true
         | _ :: _, [] => Ok false
         | x :: xs, y :: ys => if py_eq x y then go xs ys else py_lt x y
         end) l1 l2
  | _, _ =>
      match as_number a, as_number b with
      | Some x, Some y => Ok (Qlt_bool x y)
      | _, _ => Err TypeError
      end
  end.

(** [v[k]] for a string literal [k]. *)
Definition getitem_str (v : value) (k : string) : result value :=
  match v with
  | VDict d =>
      match assoc k d with
      | Some x => Ok x
      | None => Err (KeyError (VStr k))
      end
  | _ => Err TypeError
  end.

Fixpoint string_chars (s : string) : list value :=
  match s with
  | EmptyString => []
  | String c rest => VStr (String c EmptyString) :: string_chars rest
  end.

(** Position [i] of a sequence of length [n], with Python's negative
    indices. *)
Definition seq_index (n : nat) (i : Z) : option nat :=
  let j := if i <? 0 then i + Z.of_nat n else i in
  if (0 <=? j) && (j <? Z.of_nat n) then Some (Z.to_nat j) else None.

(** [v[i]] for an integer literal [i]. *)
Definition getitem_int (v : value) (i : Z) : result value :=
  match v with
  | VList l =>
      match seq_index (List.length l) i with
      | Some j => match nth_error l j with
                  | Some x => Ok x
                  | None => Err IndexError
                  end
      | None => Err IndexError
      end
  | VStr s =>
      match seq_index (String.length s) i with
      | Some j => match nth_error (string_chars s) j with
                  | Some x => Ok x
                  | None => Err IndexError
                  end
      | None => Err IndexError
      end
  | VDict _ => Err (KeyError (VInt i))
  | _ => Err TypeError
  end.

(** [len(v)] *)
Definition py_len (v : value) : result Z :=
  match v with
  | VList l => Ok (Z.of_nat (List.length l))
  | VStr s => Ok (Z.of_nat (String.length s))
  | VDict d => Ok (Z.of_nat (List.length d))
  | _ => Err TypeError
  end.

(** The elements [for x in v] visits. *)
Definition py_iter (v : value) : result (list value) :=
  match v with
  | VList l => Ok l
  | VStr s => Ok (string_chars s)
  | VDict d => Ok (map (fun kv => VStr (fst kv)) d)
  | _ => Err TypeError
  end.

(** [v.get(k, default)] *)
Definition dict_get (v : value) (k : string) (default : value) : result value :=
  match v with
  | VDict d =>
      match assoc k d with
      | Some x => Ok x
      | None => Ok default
      end
  | _ => Err AttributeError
  end.

(** ** Lookup tables

    A [dict] keyed by identifiers, most recent binding first: a later
    binding of an equal key shadows the earlier one, as assignment to a
    Python dict replaces it. *)
Definition table : Type := list (value * value).

Fixpoint table_find (t : table) (k : value) : option value :=
  match t with
  | [] => None
  | (k', v) :: rest => if py_eq k' k then Some v else table_find rest k
  end.

(** [t[k]] *)
Definition table_getitem (t : table) (k : value) : result value :=
  if hashable k then
    match table_find t k with
    | Some v => Ok v
    | None => Err (KeyError k)
    end
  else Err TypeError.

(** [t[k] = v] *)
Definition table_setitem (t : table) (k v : value) : result table :=
  if hashable k then Ok ((k, v) :: t) else Err TypeError.

(** [{x["id"]: x for x in items}] *)
Definition build_lookup (items : value) : py table :=
  xs <- lift (py_iter items) ;;
  for_each xs
    (fun x t => k <- lift (getitem_str x "id") ;; lift (table_setitem t k x))
    [].

(** ** Normalised records *)

Record NormalizedSegment : Type := mk_segment {
  segment_id : value;
  airline : value;
  airline_code : value;
  flight_number : value;
  seg_origin : value;
  seg_destination : value;
  seg_departure_time : datetime;
  seg_arrival_time : datetime;
  seg_duration : value
}.

Record NormalizedLeg : Type := mk_leg {
  origin : value;
  destination : value;
  departure_time : datetime;
  arrival_time : datetime;
  duration : value;
  segments : list NormalizedSegment;
  is_direct : bool
}.

(** The key ["return"] is the field [return_]. *)
Record NormalizedItinerary : Type := mk_itinerary {
  price_usd : value;
  outbound : NormalizedLeg;
  return_ : NormalizedLeg
}.

(** The four lookup tables of [parse_flights]. *)
Record tables : Type := mk_tables {
  legs_lookup : table;
  places_lookup : table;
  carriers_lookup : table;
  segments_lookup : table
}.

(** ** [parse_flights] *)

Section Normalization.

(** [datetime.fromisoformat] on a string: [None] where it raises
    [ValueError]. *)
Variable fromisoformat : string -> option datetime.

Definition datetime_fromisoformat (v : value) : result datetime :=
  match v with
  | VStr s =>
      match fromisoformat s with
      | Some d => Ok d
      | None => Err ValueError
      end
  | _ => Err TypeError
  end.

(** [places_lookup[x[field]]["display_code"]] *)
Definition place_code (t : tables) (x : value) (field : string) : py value :=
  pid <- lift (getitem_str x field) ;;
  place <- lift (table_getitem (places_lookup t) pid) ;;
  lift (getitem_str place "display_code").

(** [fromisoformat(x[field])] *)
Definition instant (x : value) (field : string) : py datetime :=
  s <- lift (getitem_str x field) ;;
  lift (datetime_fromisoformat s).

(** One turn of the loop over [leg["segment_ids"]]: the dictionary that is
    appended to [segments]. *)
Definition expand_segment (t : tables) (sid : value) : py NormalizedSegment :=
  seg <- lift (table_getitem (segments_lookup t) sid) ;;
  cid <- lift (getitem_str seg "marketing_carrier_id") ;;
  carrier <- lift (table_getitem (carriers_lookup t) cid) ;;
  name <- lift (getitem_str carrier "name") ;;
  code <- lift (getitem_str carrier "display_code") ;;
  number <- lift (getitem_str seg "marketing_flight_number") ;;
  orig <- place_code t seg "origin_place_id" ;;
  dest <- place_code t seg "destination_place_id" ;;
  dep <- instant seg "departure" ;;
  arr <- instant seg "arrival" ;;
  dur <- lift (getitem_str seg "duration") ;;
  ret (mk_segment sid name code number orig dest dep arr dur).

(** The local [format_leg] of [parse_flights]. *)
Definition format_leg (t : tables) (leg : value) : py NormalizedLeg :=
  orig <- place_code t leg "origin_place_id" ;;
  dest <- place_code t leg "destination_place_id" ;;
  sids <- lift (getitem_str leg "segment_ids") ;;
  sid_list <- lift (py_iter sids) ;;
  segs <- for_each sid_list
            (fun sid acc => s <- expand_segment t sid ;; ret (acc ++ [s])) [] ;;
  dep <- instant leg "departure" ;;
  arr <- instant leg "arrival" ;;
  dur <- lift (getitem_str leg "duration") ;;
  ret (mk_leg orig dest dep arr dur segs (Nat.eqb (List.length segs) 1)).

(** [itin["pricing_options"][0]["price"]["amount"]] *)
Definition first_price (itin : value) : result value :=
  match getitem_str itin "pricing_options" with
  | Err e => Err e
  | Ok options =>
      match getitem_int options 0 with
      | Err e => Err e
      | Ok option0 =>
          match getitem_str option0 "price" with
          | Err e => Err e
          | Ok price => getitem_str price "amount"
          end
      end
  end.

(** [len(itin["leg_ids"])] *)
Definition leg_count (itin : value) : result Z :=
  match getitem_str itin "leg_ids" with
  | Err e => Err e
  | Ok ids => py_len ids
  end.

(** [legs_lookup[itin["leg_ids"][i]]] *)
Definition leg_at (t : tables) (itin : value) (i : Z) : py value :=
  ids <- lift (getitem_str itin "leg_ids") ;;
  lid <- lift (getitem_int ids i) ;;
  lift (table_getitem (legs_lookup t) lid).

(** The body of the loop over the itineraries: [None] stands for
    [continue], [Some f] for the record passed to [flights.append]. *)
Definition normalize_itinerary (t : tables) (itin : value)
  : py (option NormalizedItinerary) :=
  price <- lift (first_price itin) ;;
  n <- lift (leg_count itin) ;;
  if negb (n =? 2) then ret None
  else
    outbound_leg <- leg_at t itin 0 ;;
    return_leg <- leg_at t itin 1 ;;
    ob <- format_leg t outbound_leg ;;
    rt <- format_leg t return_leg ;;
    ret (Some (mk_itinerary price ob rt)).

Definition lookup_of (data : value) (key : string) : py table :=
  items <- lift (dict_get data key (VList [])) ;;
  build_lookup items.

Definition build_tables (data : value) : py tables :=
  legs <- lookup_of data "legs" ;;
  places <- lookup_of data "places" ;;
  carriers <- lookup_of data "carriers" ;;
  segs <- lookup_of data "segments" ;;
  ret (mk_tables legs places carriers segs).

(** The sequence [for itin in data.get("itineraries", [])] runs over. *)
Definition itineraries_of (data : value) : result (list value) :=
  match dict_get data "itineraries" (VList []) with
  | Err e => Err e
  | Ok v => py_iter v
  end.

Definition append_flight (flights : list NormalizedItinerary)
  (r : option NormalizedItinerary) : list NormalizedItinerary :=
  match r with
  | Some f => flights ++ [f]
  | None => flights
  end.

Definition parse_flights (data : value) : py (list NormalizedItinerary) :=
  t <- build_tables data ;;
  itins <- lift (itineraries_of data) ;;
  for_each itins
    (fun itin flights =>
       r <- normalize_itinerary t itin ;; ret (append_flight flights r))
    [].

End Normalization.

(** ** Text formatting *)

Definition newline : string := String (ascii_of_nat 10) EmptyString.

Definition nat_to_string (n : nat) : string :=
  NilZero.string_of_uint (Nat.to_uint n).

Definition Z_to_string (z : Z) : string :=
  NilZero.string_of_int (Z.to_int z).

Fixpoint zeros (n : nat) : string :=
  match n with
  | O => ""
  | S m => "0" +++ zeros m
  end.

(** Left padding with zeros to width [w]. *)
Definition zfill (w : nat) (s : string) : string :=
  zeros (w - String.length s) +++ s.

Definition hour12 (h : nat) : nat :=
  match (h mod 12)%nat with
  | O => 12%nat
  | r => r
  end.

Definition am_pm (h : nat) : string :=
  if (h <? 12)%nat then "AM" else "PM".

(** One [strftime] directive, in the C locale, the year padded to four
    digits as the library documents it; an unknown directive is left as it
    is. *)
Definition directive (c : ascii) (d : datetime) : string :=
  if Ascii.eqb c "Y" then zfill 4 (nat_to_string (year d))
  else if Ascii.eqb c "m" then zfill 2 (nat_to_string (month d))
  else if Ascii.eqb c "d" then zfill 2 (nat_to_string (day d))
  else if Ascii.eqb c "H" then zfill 2 (nat_to_string (hour d))
  else if Ascii.eqb c "I" then zfill 2 (nat_to_string (hour12 (hour d)))
  else if Ascii.eqb c "M" then zfill 2 (nat_to_string (minute d))
  else if Ascii.eqb c "p" then am_pm (hour d)
  else String "%" (String c EmptyString).

(** [d.strftime(fmt)] *)
Fixpoint strftime (d : datetime) (fmt : string) : string :=
  match fmt with
  | EmptyString => ""
  | String c rest =>
      if Ascii.eqb c "%" then
        match rest with
        | String k rest' => directive k d +++ strftime d rest'
        | EmptyString => "%"
        end
      else String c (strftime d rest)
  end.

(** The integer nearest to [q], ties to the even one. *)
Definition round_half_even (q : Q) : Z :=
  let f := Qfloor q in
  match Qcompare (q - inject_Z f) (1 # 2) with
  | Lt => f
  | Gt => f + 1
  | Eq => if Z.even f then f else f + 1
  end.

(** [float(z)]: the nearest number with a 53-bit significand. *)
Definition float_of_int (z : Z) : result Q :=
  let a := Z.abs z in
  let bits := Z.log2 a + 1 in
  if bits <=? 53 then Ok (inject_Z z)
  else
    let unit := 2 ^ (bits - 53) in
    let r := round_half_even (inject_Z a / inject_Z unit)%Q * unit in
    if 2 ^ 1024 <=? r then Err OverflowError
    else Ok (inject_Z (Z.sgn z * r)).

(** A number in fixed notation with two decimals. *)
Definition fixed2 (q : Q) : string :=
  let n := round_half_even (Qabs q * 100) in
  (if Qlt_bool q 0 then "-" else "")
  +++ Z_to_string (n / 100) +++ "." +++ zfill 2 (Z_to_string (n mod 100)).

(** The float a [float] format spec works on. *)
Definition to_float (v : value) : result Q :=
  match v with
  | VFloat q => Ok q
  | VInt z => float_of_int z
  | VBool b => Ok (inject_Z (if b then 1 else 0))
  | VStr _ => Err ValueError
  | _ => Err TypeError
  end.

(** [format(v, ".2f")] *)
Definition format_2f (v : value) : result string :=
  match to_float v with
  | Ok q => Ok (fixed2 q)
  | Err e => Err e
  end.

(** ** Compressed records *)

Record CompressedLeg : Type := mk_compressed_leg {
  route : string;
  departure : string;
  arrival : string;
  segment_codes : list string
}.

Record CompressedItinerary : Type := mk_compressed {
  c_price_usd : value;
  c_outbound : CompressedLeg;
  c_return : CompressedLeg
}.

(** Records that expose a [price_usd] field. *)
Class Priced (A : Type) : Type := price_of : A -> value.

#[export] Instance Priced_normalized : Priced NormalizedItinerary := price_usd.
#[export] Instance Priced_compressed : Priced CompressedItinerary := c_price_usd.

(** ** [format_flight_for_humans] and [simplify_parsed_flights] *)

Section Presentation.

(** [str(v)], as an f-string renders a value with no format spec. *)
Variable py_str : value -> string.

Definition humans_segment_line (seg : NormalizedSegment) : string :=
  "  - " +++ py_str (airline seg) +++ " "
  +++ py_str (airline_code seg) +++ py_str (flight_number seg) +++ ": "
  +++ py_str (seg_origin seg) +++ " → " +++ py_str (seg_destination seg) +++ ", "
  +++ "Dep: " +++ strftime (seg_departure_time seg) "%I:%M %p" +++ ", "
  +++ "Arr: " +++ strftime (seg_arrival_time seg) "%I:%M %p" +++ ", "
  +++ "Duration: " +++ py_str (seg_duration seg) +++ " min".

(** The local [format_leg] of [format_flight_for_humans]. *)
Definition humans_leg_lines (leg : NormalizedLeg) (leg_name : string)
  : list string :=
  [ leg_name +++ " Flight:";
    "- From " +++ py_str (origin leg) +++ " to " +++ py_str (destination leg);
    "- Departure: " +++ strftime (departure_time leg) "%Y-%m-%d %I:%M %p";
    "- Arrival: " +++ strftime (arrival_time leg) "%Y-%m-%d %I:%M %p";
    "- Duration: " +++ py_str (duration leg) +++ " minutes";
    "- Direct Flight: " +++ (if is_direct leg then "Yes" else "No");
    "- Segments:" ]
  ++ map humans_segment_line (segments leg).

Definition humans_format_leg (leg : NormalizedLeg) (leg_name : string)
  : string :=
  String.concat newline (humans_leg_lines leg leg_name).

Definition format_flight_for_humans (flight : NormalizedItinerary)
  : py string :=
  price <- lift (format_2f (price_usd flight)) ;;
  ret (String.concat (newline +++ newline)
         [ "Price: $" +++ price;
           humans_format_leg (outbound flight) "Outbound";
           humans_format_leg (return_ flight) "Return" ]).

Definition format_flights (flights : list NormalizedItinerary)
  : py (list string) :=
  for_each flights
    (fun flight acc => s <- format_flight_for_humans flight ;; ret (acc ++ [s]))
    [].

Definition simplify_segment (seg : NormalizedSegment) : string :=
  py_str (airline_code seg) +++ py_str (flight_number seg) +++ " "
  +++ py_str (seg_origin seg) +++ "→" +++ py_str (seg_destination seg) +++ " "
  +++ "(" +++ strftime (seg_departure_time seg) "%H:%M" +++ "→"
  +++ strftime (seg_arrival_time seg) "%H:%M" +++ ")".

(** The local [format_leg] of [simplify_parsed_flights]. *)
Definition simplify_format_leg (leg : NormalizedLeg) : CompressedLeg :=
  {| route := py_str (origin leg) +++ " → " +++ py_str (destination leg);
     departure := strftime (departure_time leg) "%Y-%m-%d %H:%M";
     arrival := strftime (arrival_time leg) "%Y-%m-%d %H:%M";
     segment_codes := map simplify_segment (segments leg) |}.

Definition simplify_one (f : NormalizedItinerary) : CompressedItinerary :=
  {| c_price_usd := price_usd f;
     c_outbound := simplify_format_leg (outbound f);
     c_return := simplify_format_leg (return_ f) |}.

(** [xs[:n]] *)
Definition slice_to {A} (xs : list A) (n : Z) : list A :=
  if n <? 0 then firstn (Z.to_nat (Z.of_nat (List.length xs) + n)) xs
  else firstn (Z.to_nat n) xs.

Definition simplify_parsed_flights (flights : list NormalizedItinerary)
  (max_results : Z) : py (list CompressedItinerary) :=
  for_each (slice_to flights max_results)
    (fun f simplified => ret (simplified ++ [simplify_one f]))
    [].

End Presentation.

(** ** [get_cheapest_flight] *)

(** The scan of [min(xs, key=...)]: the running minimum is replaced only
    by an item whose key is strictly smaller. *)
Fixpoint min_scan {A} (key : A -> value) (rest : list A) (best : A)
  : py A :=
  match rest with
  | [] => ret best
  | x :: rest' =>
      smaller <- lift (py_lt (key x) (key best)) ;;
      min_scan key rest' (if smaller then x else best)
  end.

Definition py_min {A} (key : A -> value) (xs : list A) : py A :=
  match xs with
  | [] => raise ValueError
  | x :: rest => min_scan key rest x
  end.

Definition get_cheapest_flight {A} `{Priced A} (flights : list A)
  : py (option A) :=
  match flights with
  | [] => ret None
  | _ => cheapest_flight <- py_min price_of flights ;; ret (Some cheapest_flight)
  end.

(** ** Instances used by the examples *)

Definition digit_of (c : ascii) : option nat :=
  let n := nat_of_ascii c in
  if ((48 <=? n) && (n <=? 57))%nat then Some (n - 48)%nat else None.

Fixpoint digits_value (s : string) (acc : nat) : option nat :=
  match s with
  | EmptyString => Some acc
  | String c rest =>
      match digit_of c with
      | Some d => digits_value rest (10 * acc + d)%nat
      | None => None
      end
  end.

Definition field_of (s : string) (start len : nat) : option nat :=
  digits_value (substring start len s) 0.

Definition is_leap (y : nat) : bool :=
  (((y mod 4 =? 0) && negb (y mod 100 =? 0)) || (y mod 400 =? 0))%nat.

Definition days_in_month (y m : nat) : nat :=
  match m with
  | 2%nat => if is_leap y then 29%nat else 28%nat
  | 4%nat | 6%nat | 9%nat | 11%nat => 30%nat
  | _ => 31%nat
  end.

(** [fromisoformat] on the layout [YYYY-MM-DDTHH:MM:SS], which every
    version of the function accepts; other layouts are rejected here. *)
Definition fromisoformat_seconds (s : string) : option datetime :=
  if negb (String.length s =? 19)%nat then None
  else if negb (String.eqb (substring 4 1 s) "-" && String.eqb (substring 7 1 s) "-"
                && String.eqb (substring 10 1 s) "T"
                && String.eqb (substring 13 1 s) ":"
                && String.eqb (substring 16 1 s) ":") then None
  else
    match field_of s 0 4, field_of s 5 2, field_of s 8 2,
          field_of s 11 2, field_of s 14 2, field_of s 17 2 with
    | Some y, Some mo, Some d, Some h, Some mi, Some sec =>
        if ((1 <=? y) && (1 <=? mo) && (mo <=? 12) && (1 <=? d)
            && (d <=? days_in_month y mo) && (h <? 24) && (mi <? 60)
            && (sec <? 60))%nat
        then Some (mk_datetime y mo d h mi sec 0 None)
        else None
    | _, _, _, _, _, _ => None
    end.

(** [str] on [None], booleans, integers and strings; the examples render
    no other value. *)
Definition str_simple (v : value) : string :=
  match v with
  | VNone => "None"
  | VBool b => if b then "True" else "False"
  | VInt z => Z_to_string z
  | VStr s => s
  | _ => ""
  end.

Definition obj_id (id : string) (fields : list (string * value)) : value :=
  VDict (("id", VStr id) :: fields).

Definition sample_place (id code : string) : value :=
  obj_id id [("display_code", VStr code)].

Definition sample_carrier (id name code : string) : value :=
  obj_id id [("name", VStr name); ("display_code", VStr code)].

Definition sample_segment (id carrier number from to dep arr : string)
  (minutes : Z) : value :=
  obj_id id
    [("marketing_carrier_id", VStr carrier);
     ("marketing_flight_number", VStr number);
     ("origin_place_id", VStr from);
     ("destination_place_id", VStr to);
     ("departure", VStr dep);
     ("arrival", VStr arr);
     ("duration", VInt minutes)].

Definition sample_leg (id from to dep arr : string) (minutes : Z)
  (segment_ids : list string) : value :=
  obj_id id
    [("origin_place_id", VStr from);
     ("destination_place_id", VStr to);
     ("departure", VStr dep);
     ("arrival", VStr arr);
     ("duration", VInt minutes);
     ("segment_ids", VList (map VStr segment_ids))].

Definition sample_itinerary (amounts : list Q) (leg_ids : list string)
  : value :=
  VDict
    [("pricing_options",
      VList (map (fun q => VDict [("price", VDict [("amount", VFloat q)])])
               amounts));
     ("leg_ids", VList (map VStr leg_ids))].

Definition sample_places : list value :=
  [sample_place "p1" "JFK"; sample_place "p2" "LHR"; sample_place "p3" "KEF"].

Definition sample_carriers : list value :=
  [sample_carrier "c1" "British Airways" "BA";
   sample_carrier "c2" "Icelandair" "FI"].

Definition sample_segments : list value :=
  [sample_segment "s1" "c1" "178" "p1" "p2"
     "2025-03-01T18:30:00" "2025-03-02T06:25:00" 415;
   sample_segment "s2" "c2" "451" "p2" "p3"
     "2025-03-10T13:05:00" "2025-03-10T15:10:00" 185;
   sample_segment "s3" "c2" "615" "p3" "p1"
     "2025-03-10T17:00:00" "2025-03-10T18:55:00" 355;
   sample_segment "s4" "c1" "117" "p2" "p1"
     "2025-03-10T00:40:00" "2025-03-10T03:35:00" 475;
   sample_segment "s5" "c9" "20" "p2" "p1"
     "2025-03-11T09:00:00" "2025-03-11T12:00:00" 480].

Definition sample_legs : list value :=
  [sample_leg "l1" "p1" "p2" "2025-03-01T18:30:00" "2025-03-02T06:25:00" 415
     ["s1"];
   sample_leg "l2" "p2" "p1" "2025-03-10T13:05:00" "2025-03-10T18:55:00" 650
     ["s2"; "s3"];
   sample_leg "l3" "p2" "p1" "2025-03-10T00:40:00" "2025-03-10T03:35:00" 475
     ["s4"];
   sample_leg "l4" "p9" "p1" "2025-03-10T00:40:00" "2025-03-10T03:35:00" 475
     ["s4"];
   sample_leg "l5" "p2" "p1" "2025-03-10T00:40:00" "2025-03-10T03:35:00" 475
     ["s9"];
   sample_leg "l6" "p2" "p1" "2025-03-11T09:00:00" "2025-03-11T12:00:00" 480
     ["s5"]].

Definition sample_payload (itineraries : list value) : value :=
  VDict [("legs", VList sample_legs); ("places", VList sample_places);
         ("carriers", VList sample_carriers);
         ("segments", VList sample_segments);
         ("itineraries", VList itineraries)].

(** Legs [l4], [l5] and [l6] reach an identifier that no table holds: place
    [p9], segment [s9], and carrier [c9] through segment [s5]; leg [l9] does
    not exist. *)
Definition round_trip_via (return_leg : string) : value :=
  sample_itinerary [(2990 # 10)%Q] ["l1"; return_leg].

(** Two round trips priced 412.50 and 387.20. *)
Definition two_round_trips : list value :=
  [sample_itinerary [(4125 # 10)%Q; (3990 # 10)%Q] ["l1"; "l2"];
   sample_itinerary [(3872 # 10)%Q] ["l1"; "l3"]].

(** A one-way itinerary, a round trip, a three-leg itinerary and a second
    round trip. *)
Definition mixed_itineraries : list value :=
  [sample_itinerary [(1000 # 10)%Q] ["l1"];
   sample_itinerary [(4125 # 10)%Q; (3990 # 10)%Q] ["l1"; "l2"];
   sample_itinerary [(2000 # 10)%Q] ["l1"; "l2"; "l3"];
   sample_itinerary [(3872 # 10)%Q] ["l1"; "l3"]].

(** An itinerary with one leg and no pricing option. *)
Definition unpriced_one_way : value := sample_itinerary [] ["l1"].

Definition sample_ambient : ambient :=
  mk_ambient (mk_datetime 2025 1 15 9 30 0 0 None) (fun _ => None).

Definition later_ambient : ambient :=
  mk_ambient (mk_datetime 2026 7 4 23 59 59 0 None) (fun _ => Some "x").

Definition epoch : datetime := mk_datetime 1970 1 1 0 0 0 0 None.

Definition empty_leg : NormalizedLeg :=
  mk_leg VNone VNone epoch epoch VNone [] false.

Definition sample_tables : tables :=
  Eval vm_compute in
    match build_tables (sample_payload []) sample_ambient with
    | Ok t => t
    | Err _ => mk_tables [] [] [] []
    end.

(** What [parse_flights] returns on the two round trips. *)
Definition sample_flights : list NormalizedItinerary :=
  Eval vm_compute in
    match parse_flights fromisoformat_seconds (sample_payload two_round_trips)
            sample_ambient with
    | Ok flights => flights
    | Err _ => []
    end.

(** The second of them, priced 387.20. *)
Definition sample_cheapest : NormalizedItinerary :=
  Eval vm_compute in nth 1 sample_flights (mk_itinerary VNone empty_leg empty_leg).

Definition priced (q : Q) (tag : string) : CompressedItinerary :=
  mk_compressed (VFloat q)
    (mk_compressed_leg tag "" "" []) (mk_compressed_leg tag "" "" []).

(** Three compressed records, the last two at the same price. *)
Definition tied_prices : list CompressedItinerary :=
  [priced (4125 # 10) "a"; priced (3872 # 10) "b"; priced (3872 # 10) "c"].

(** ** Vocabulary of the statements *)

(** The outcome of [m] is the same in every ambient state. *)
Definition ambient_free {A} (m : py A) : Prop :=
  forall w1 w2, m w1 = m w2.

(** [m] returns a value, it does not raise. *)
Definition returns {A} (m : py A) (w : ambient) : Prop :=
  exists x, m w = Ok x.

(** [is_direct] says whether the leg has exactly one segment. *)
Definition direct_iff_one_segment (leg : NormalizedLeg) : Prop :=
  is_direct leg = true <-> List.length (segments leg) = 1%nat.

(** The itineraries that pass the test [len(itin["leg_ids"]) != 2]. *)
Definition is_round_trip (itin : value) : bool :=
  match leg_count itin with
  | Ok n => n =? 2
  | Err _ => false
  end.

(** *** Resolvable round trips *)

Section Resolvable.

Variable fromisoformat : string -> option datetime.
Variable t : tables.

(** [x[field]] is the identifier of a place that has a display code. *)
Definition place_ok (x : value) (field : string) : Prop :=
  exists pid place code,
    getitem_str x field = Ok pid /\
    table_getitem (places_lookup t) pid = Ok place /\
    getitem_str place "display_code" = Ok code.

(** [x[field]] is a string that [fromisoformat] reads. *)
Definition instant_ok (x : value) (field : string) : Prop :=
  exists s d, getitem_str x field = Ok (VStr s) /\ fromisoformat s = Some d.

(** [sid] resolves to a segment whose carrier and places resolve, and
    which has the fields that are copied from it. *)
Definition segment_ok (sid : value) : Prop :=
  exists seg cid carrier name code number dur,
    table_getitem (segments_lookup t) sid = Ok seg /\
    getitem_str seg "marketing_carrier_id" = Ok cid /\
    table_getitem (carriers_lookup t) cid = Ok carrier /\
    getitem_str carrier "name" = Ok name /\
    getitem_str carrier "display_code" = Ok code /\
    getitem_str seg "marketing_flight_number" = Ok number /\
    place_ok seg "origin_place_id" /\ place_ok seg "destination_place_id" /\
    instant_ok seg "departure" /\ instant_ok seg "arrival" /\
    getitem_str seg "duration" = Ok dur.

Definition leg_ok (leg : value) : Prop :=
  place_ok leg "origin_place_id" /\ place_ok leg "destination_place_id" /\
  (exists sids sid_list,
     getitem_str leg "segment_ids" = Ok sids /\
     py_iter sids = Ok sid_list /\ Forall segment_ok sid_list) /\
  instant_ok leg "departure" /\ instant_ok leg "arrival" /\
  exists dur, getitem_str leg "duration" = Ok dur.

(** Both leg identifiers of [itin] resolve, to legs whose places, segments
    and carriers resolve. *)
Definition resolvable (itin : value) : Prop :=
  exists ids lid0 lid1 leg0 leg1,
    getitem_str itin "leg_ids" = Ok ids /\
    getitem_int ids 0 = Ok lid0 /\ getitem_int ids 1 = Ok lid1 /\
    table_getitem (legs_lookup t) lid0 = Ok leg0 /\
    table_getitem (legs_lookup t) lid1 = Ok leg1 /\
    leg_ok leg0 /\ leg_ok leg1.

End Resolvable.

(** *** What the payload holds, read off its structure *)

(** The array under the key [pricing_options] of an itinerary. *)
Definition pricing_options_of (itin : value) : option (list value) :=
  match itin with
  | VDict d =>
      match assoc "pricing_options" d with
      | Some (VList options) => Some options
      | _ => None
      end
  | _ => None
  end.

(** The amount of a pricing option: what it holds under [price], then
    [amount]. *)
Definition amount_of (entry : value) : option value :=
  match entry with
  | VDict o =>
      match assoc "price" o with
      | Some (VDict p) => assoc "amount" p
      | _ => None
      end
  | _ => None
  end.

(** [amount] is the amount of the entry at index 0 of the pricing options
    of [itin]; the entries after it are free. *)
Definition first_amount (itin : value) (amount : value) : Prop :=
  exists first rest,
    pricing_options_of itin = Some (first :: rest) /\
    amount_of first = Some amount.

(** The array under the key [leg_ids] of an itinerary. *)
Definition leg_ids_of (itin : value) : option (list value) :=
  match itin with
  | VDict d =>
      match assoc "leg_ids" d with
      | Some (VList ids) => Some ids
      | _ => None
      end
  | _ => None
  end.

(** The [leg_ids] array has length exactly 2. *)
Definition two_leg_ids (itin : value) : bool :=
  match leg_ids_of itin with
  | Some ids => Nat.eqb (List.length ids) 2
  | None => false
  end.

(** *** The record of a round trip, field by field *)

Section Records.

Variable fromisoformat : string -> option datetime.
Variable t : tables.






End Records.

(** [leg] is the record one of the two leg identifiers of [itin] resolves
    to. *)
Inductive leg_of (t : tables) (itin : value) : value -> Prop :=
| leg_of_intro (i : Z) (ids lid leg : value) :
    i = 0 \/ i = 1 ->
    getitem_str itin "leg_ids" = Ok ids ->
    getitem_int ids i = Ok lid ->
    table_getitem (legs_lookup t) lid = Ok leg ->
    leg_of t itin leg.

(** [seg] is the record a segment identifier of one of those legs resolves
    to. *)
Inductive segment_of (t : tables) (itin : value) : value -> Prop :=
| segment_of_intro (leg sids sid seg : value) (sid_list : list value) :
    leg_of t itin leg ->
    getitem_str leg "segment_ids" = Ok sids ->
    py_iter sids = Ok sid_list ->
    In sid sid_list ->
    table_getitem (segments_lookup t) sid = Ok seg ->
    segment_of t itin seg.

Definition place_field (field : string) : Prop :=
  field = "origin_place_id" \/ field = "destination_place_id".

(** [refers t itin tbl k]: the round trip [itin] references identifier [k],
    to be resolved in table [tbl]. *)
Inductive refers (t : tables) (itin : value) : table -> value -> Prop :=
| refers_leg (i : Z) (ids lid : value) :
    i = 0 \/ i = 1 ->
    getitem_str itin "leg_ids" = Ok ids ->
    getitem_int ids i = Ok lid ->
    refers t itin (legs_lookup t) lid
| refers_leg_place (leg pid : value) (field : string) :
    leg_of t itin leg -> place_field field ->
    getitem_str leg field = Ok pid ->
    refers t itin (places_lookup t) pid
| refers_segment (leg sids sid : value) (sid_list : list value) :
    leg_of t itin leg ->
    getitem_str leg "segment_ids" = Ok sids ->
    py_iter sids = Ok sid_list ->
    In sid sid_list ->
    refers t itin (segments_lookup t) sid
| refers_carrier (seg cid : value) :
    segment_of t itin seg ->
    getitem_str seg "marketing_carrier_id" = Ok cid ->
    refers t itin (carriers_lookup t) cid
| refers_segment_place (seg pid : value) (field : string) :
    segment_of t itin seg -> place_field field ->
    getitem_str seg field = Ok pid ->
    refers t itin (places_lookup t) pid.

(** [best], at position [i] of [xs], has the least key of [xs] and is the
    first item to have it. *)
Definition first_minimum {A} (key : A -> value) (xs : list A) (i : nat)
  (best : A) : Prop :=
  nth_error xs i = Some best /\
  exists p,
    as_number (key best) = Some p /\
    forall j x q,
      nth_error xs j = Some x -> as_number (key x) = Some q ->
      (p <= q)%Q /\ ((j < i)%nat -> (p < q)%Q).

(** What [%Y-%m-%d] and [%I:%M %p] stand for. *)
Definition date_of (d : datetime) : string :=
  zfill 4 (nat_to_string (year d)) +++ "-"
  +++ zfill 2 (nat_to_string (month d)) +++ "-"
  +++ zfill 2 (nat_to_string (day d)).

Definition clock12 (d : datetime) : string :=
  zfill 2 (nat_to_string (hour12 (hour d))) +++ ":"
  +++ zfill 2 (nat_to_string (minute d)) +++ " " +++ am_pm (hour d).

(** A clock reading of the 12-hour kind: the hour shown is between 1 and
    12 and agrees with the hour of the day modulo 12, and the suffix is AM
    before noon and PM from noon on. *)
Definition twelve_hour (d : datetime) : Prop :=
  (1 <= hour12 (hour d) <= 12)%nat /\
  (hour12 (hour d) mod 12 = hour d mod 12)%nat /\
  ((hour d < 12)%nat -> am_pm (hour d) = "AM") /\
  ((12 <= hour d)%nat -> am_pm (hour d) = "PM").

(** [s] shows [q] with two decimals: an optional sign, the whole part, a
    dot and two digits, the number of hundredths being the nearest to
    [|q| * 100]. *)
Definition two_decimals (q : Q) (s : string) : Prop :=
  exists sign whole cents,
    s = sign +++ Z_to_string whole +++ "." +++ zfill 2 (Z_to_string cents) /\
    (sign = "" \/ sign = "-") /\
    0 <= whole /\ 0 <= cents < 100 /\
    String.length (zfill 2 (Z_to_string cents)) = 2%nat /\
    (Qabs (Qabs q * 100 - inject_Z (100 * whole + cents)) <= 1 # 2)%Q.

(** *** Vocabulary of the further properties *)

(** The last item of [items] whose ["id"] equals [k]. *)
Fixpoint last_with_id (k : value) (items : list value) : option value :=
  match items with
  | [] => None
  | x :: rest =>
      match last_with_id k rest with
      | Some y => Some y
      | None =>
          match getitem_str x "id" with
          | Ok k' => if py_eq k' k then Some x else None
          | Err _ => None
          end
      end
  end.

(** [x["id"]] exists and can be a dictionary key. *)
Definition has_id (x : value) : Prop :=
  exists k, getitem_str x "id" = Ok k /\ hashable k = true.

(** The keys of the payload that [parse_flights] reads. *)
Definition top_level_keys : list string :=
  ["legs"; "places"; "carriers"; "segments"; "itineraries"].

(** The identifiers [for sid in leg["segment_ids"]] visits. *)
Definition segment_ids_of (leg : value) : result (list value) :=
  match getitem_str leg "segment_ids" with
  | Ok sids => py_iter sids
  | Err e => Err e
  end.

(** [best], at position [i] of [xs], has the least key of [xs] in the
    order of strings and is the first item to have it. *)
Definition first_in_text_order {A} (key : A -> value) (xs : list A) (i : nat)
  (best : A) : Prop :=
  nth_error xs i = Some best /\
  exists s,
    key best = VStr s /\
    forall j x r,
      nth_error xs j = Some x -> key x = VStr r ->
      String.ltb r s = false /\ ((j < i)%nat -> String.ltb s r = true).

Definition priced_text (amount tag : string) : CompressedItinerary :=
  mk_compressed (VStr amount)
    (mk_compressed_leg tag "" "" []) (mk_compressed_leg tag "" "" []).

(** The entries of [sample_payload]. *)
Definition sample_entries (itineraries : list value) : list (string * value) :=
  [("legs", VList sample_legs); ("places", VList sample_places);
   ("carriers", VList sample_carriers); ("segments", VList sample_segments);
   ("itineraries", VList itineraries)].

(** Two places share the id [p1]. *)
Definition duplicate_places : list value :=
  [sample_place "p1" "JFK"; sample_place "p2" "LHR"; sample_place "p1" "NYC"].

(** A leg record that has lost its id, after one that has it. *)
Definition legs_with_anonymous : list value :=
  [sample_place "l1" "x"; VDict [("origin_place_id", VStr "p1")];
   sample_place "l2" "y"].

Definition flight_priced (price : value) : NormalizedItinerary :=
  mk_itinerary price empty_leg empty_leg.

(** The two instants agree down to the minute. *)
Definition same_minute (d1 d2 : datetime) : Prop :=
  year d1 = year d2 /\ month d1 = month d2 /\ day d1 = day d2 /\
  hour d1 = hour d2 /\ minute d1 = minute d2.

(** The format strings that the code passes to [strftime]. *)
Definition formats_used : list string :=
  ["%Y-%m-%d %I:%M %p"; "%I:%M %p"; "%Y-%m-%d %H:%M"; "%H:%M"].

(** [leg] with other departure and arrival instants. *)
Definition with_times (leg : NormalizedLeg) (dep arr : datetime)
  : NormalizedLeg :=
  mk_leg (origin leg) (destination leg) dep arr (duration leg)
    (segments leg) (is_direct leg).

(** The hour of the day that a 12-hour reading and its suffix stand for. *)
Definition hour24_of (h12 : nat) (suffix : string) : nat :=
  ((h12 mod 12) + (if String.eqb suffix "PM" then 12 else 0))%nat.

(** The number of leading items that [xs[:n]] keeps. *)
Definition slice_length (len : nat) (n : Z) : nat :=
  if n <? 0 then Z.to_nat (Z.of_nat len + n) else Nat.min (Z.to_nat n) len.

(** * Properties *)

(** ** The monad *)

Lemma bind_ok {A B} (m : py A) (k : A -> py B) w x :
  m w = Ok x -> bind m k w = k x w.
Proof. intros Hm. unfold bind. now rewrite Hm. Qed.

Lemma bind_err {A B} (m : py A) (k : A -> py B) w e :
  m w = Err e -> bind m k w = Err e.
Proof. intros Hm. unfold bind. now rewrite Hm. Qed.

Lemma bind_inv {A B} (m : py A) (k : A -> py B) w y :
  bind m k w = Ok y -> exists x, m w = Ok x /\ k x w = Ok y.
Proof.
  unfold bind. destruct (m w) as [x|e]; [|discriminate].
  intros Hk. now exists x.
Qed.

Lemma ret_inv {A} (x y : A) w : ret x w = Ok y -> x = y.
Proof. unfold ret. congruence. Qed.

(** Peels the successful steps off a computation known to return. *)
Ltac py_inv H :=
  repeat
    (let x := fresh "x" in
     let Hx := fresh "Hx" in
     apply bind_inv in H; destruct H as (x & Hx & H));
  try apply ret_inv in H.

Lemma for_each_app {A S} (xs ys : list A) (body : A -> S -> py S) s w :
  for_each (xs ++ ys) body s w =
  match for_each xs body s w with
  | Ok s' => for_each ys body s' w
  | Err e => Err e
  end.
Proof.
  revert s. induction xs as [|x xs IH]; intros s; simpl; [reflexivity|].
  unfold bind. destruct (body x s w); [apply IH | reflexivity].
Qed.

(** A loop that appends one item per turn, and cannot raise, is a [map]. *)
Lemma for_each_append_map {A B} (f : A -> B) (xs : list A) acc w :
  for_each xs (fun x out => ret (out ++ [f x])) acc w = Ok (acc ++ map f xs).
Proof.
  revert acc. induction xs as [|x xs IH]; intros acc; simpl.
  - now rewrite app_nil_r.
  - unfold bind, ret at 1. rewrite IH. now rewrite <- app_assoc.
Qed.

(** ** Independence of the ambient state *)

Lemma ambient_free_ret {A} (x : A) : ambient_free (ret x).
Proof. intros w1 w2. reflexivity. Qed.

Lemma ambient_free_lift {A} (r : result A) : ambient_free (lift r).
Proof. intros w1 w2. reflexivity. Qed.

Lemma ambient_free_bind {A B} (m : py A) (k : A -> py B) :
  ambient_free m -> (forall x, ambient_free (k x)) -> ambient_free (bind m k).
Proof.
  intros Hm Hk w1 w2. unfold bind. rewrite (Hm w1 w2).
  destruct (m w2); [apply Hk | reflexivity].
Qed.

Lemma ambient_free_for_each {A S} (xs : list A) (body : A -> S -> py S) :
  (forall x s, ambient_free (body x s)) ->
  forall s, ambient_free (for_each xs body s).
Proof.
  intros Hb. induction xs as [|x xs IH]; intros s; simpl.
  - apply ambient_free_ret.
  - apply ambient_free_bind; auto.
Qed.

Lemma ambient_free_if {A} (b : bool) (m1 m2 : py A) :
  ambient_free m1 -> ambient_free m2 -> ambient_free (if b then m1 else m2).
Proof. destruct b; auto. Qed.

Create HintDb ambient.
#[export] Hint Resolve ambient_free_ret ambient_free_lift ambient_free_bind
  ambient_free_for_each ambient_free_if : ambient.

(** The wall clock is an ambient read: two ambients tell it apart. *)
Example datetime_now_reads_ambient : ~ ambient_free datetime_now.
Proof.
  intros H. specialize (H sample_ambient later_ambient). discriminate H.
Qed.

(** ** Normalisation *)

Section NormalizationFacts.

Variable fromisoformat : string -> option datetime.

Local Notation normalize := (normalize_itinerary fromisoformat).
Local Notation parse := (parse_flights fromisoformat).

Lemma ambient_free_build_lookup items : ambient_free (build_lookup items).
Proof. unfold build_lookup. auto 10 with ambient. Qed.

Lemma ambient_free_build_tables data : ambient_free (build_tables data).
Proof.
  unfold build_tables, lookup_of.
  pose proof ambient_free_build_lookup. auto 20 with ambient.
Qed.

Lemma ambient_free_place_code t x field : ambient_free (place_code t x field).
Proof. unfold place_code. auto 10 with ambient. Qed.

Lemma ambient_free_instant x field :
  ambient_free (instant fromisoformat x field).
Proof. unfold instant. auto with ambient. Qed.

Lemma ambient_free_expand_segment t sid :
  ambient_free (expand_segment fromisoformat t sid).
Proof.
  unfold expand_segment.
  pose proof ambient_free_place_code. pose proof ambient_free_instant.
  auto 30 with ambient.
Qed.

Lemma ambient_free_format_leg t leg :
  ambient_free (format_leg fromisoformat t leg).
Proof.
  unfold format_leg.
  pose proof ambient_free_place_code. pose proof ambient_free_instant.
  pose proof ambient_free_expand_segment.
  repeat (apply ambient_free_bind; [auto 10 with ambient | intros ]).
  apply ambient_free_ret.
Qed.

Lemma ambient_free_normalize t itin : ambient_free (normalize t itin).
Proof.
  unfold normalize_itinerary, leg_at.
  pose proof ambient_free_format_leg.
  repeat (apply ambient_free_bind; [auto 10 with ambient | intros ]).
  apply ambient_free_if; auto 20 with ambient.
Qed.

(** C8. Normalisation is deterministic: whatever the wall clock and the
    environment are when [parse_flights] runs, the same payload gives the
    same outcome, the same list of records or the same exception. *)
Theorem parse_flights_deterministic (data : value) (w1 w2 : ambient) :
  parse data w1 = parse data w2.
Proof.
  revert w1 w2. change (ambient_free (parse data)).
  unfold parse_flights.
  apply ambient_free_bind; [apply ambient_free_build_tables | intros t].
  apply ambient_free_bind; [apply ambient_free_lift | intros itins].
  apply ambient_free_for_each. intros itin flights.
  apply ambient_free_bind; [apply ambient_free_normalize | intros r].
  apply ambient_free_ret.
Qed.


(** *** What a successful run has done *)

Lemma format_leg_direct t leg w l :
  format_leg fromisoformat t leg w = Ok l ->
  is_direct l = Nat.eqb (List.length (segments l)) 1.
Proof.
  unfold format_leg. intros H. py_inv H. now subst l.
Qed.

Lemma normalize_inv t itin w r :
  normalize t itin w = Ok r ->
  exists price n,
    first_price itin = Ok price /\ leg_count itin = Ok n /\
    if n =? 2 then
      exists ol rl ob rt,
        leg_at t itin 0 w = Ok ol /\ leg_at t itin 1 w = Ok rl /\
        format_leg fromisoformat t ol w = Ok ob /\
        format_leg fromisoformat t rl w = Ok rt /\
        r = Some (mk_itinerary price ob rt)
    else r = None.
Proof.
  unfold normalize_itinerary. intros H.
  apply bind_inv in H. destruct H as (price & Hp & H).
  apply bind_inv in H. destruct H as (n & Hn & H).
  exists price, n. repeat split; [exact Hp | exact Hn |].
  destruct (n =? 2); simpl in H.
  - py_inv H. eauto 10.
  - now apply ret_inv in H.
Qed.

Lemma normalize_round_trip t itin w r :
  normalize t itin w = Ok r ->
  if is_round_trip itin then exists f, r = Some f else r = None.
Proof.
  intros H. apply normalize_inv in H.
  destruct H as (price & n & _ & Hn & H).
  unfold is_round_trip. rewrite Hn. destruct (n =? 2); [|exact H].
  destruct H as (ol & rl & ob & rt & _ & _ & _ & _ & ->). eauto.
Qed.

(** *** The loop over the itineraries *)

Lemma parse_loop_inv t w itins :
  forall acc out,
    for_each itins
      (fun itin flights =>
         r <- normalize t itin ;; ret (append_flight flights r)) acc w = Ok out ->
    Forall (fun itin => returns (normalize t itin) w) itins /\
    exists fs,
      out = acc ++ fs /\
      Forall2 (fun itin f => normalize t itin w = Ok (Some f))
        (filter is_round_trip itins) fs.
Proof.
  induction itins as [|itin itins IH]; intros acc out H; simpl in H.
  - apply ret_inv in H. subst out. split; [constructor|].
    exists []. rewrite app_nil_r. split; [reflexivity | constructor].
  - apply bind_inv in H. destruct H as (acc' & Hbody & H).
    apply bind_inv in Hbody. destruct Hbody as (r & Hr & Hacc).
    apply ret_inv in Hacc. subst acc'.
    apply IH in H. destruct H as (Hall & fs & -> & Hfs).
    split; [constructor; [now exists r | exact Hall]|].
    pose proof (normalize_round_trip _ _ _ _ Hr) as Hrt. simpl.
    destruct (is_round_trip itin).
    + destruct Hrt as (f & ->). exists (f :: fs). simpl.
      rewrite <- app_assoc. split; [reflexivity|]. now constructor.
    + subst r. now exists fs.
Qed.

Lemma parse_loop_total t w itins :
  Forall (fun itin => returns (normalize t itin) w) itins ->
  forall acc,
    returns (for_each itins
               (fun itin flights =>
                  r <- normalize t itin ;; ret (append_flight flights r)) acc) w.
Proof.
  induction 1 as [|itin itins (r & Hr) _ IH]; intros acc; simpl.
  - now exists acc.
  - destruct (IH (append_flight acc r)) as (out & Hout). exists out.
    rewrite (bind_ok _ _ _ (append_flight acc r)); [exact Hout|].
    now rewrite (bind_ok _ _ _ r).
Qed.

Lemma parse_loop_err t w pre itin post e :
  Forall (fun itin => returns (normalize t itin) w) pre ->
  normalize t itin w = Err e ->
  forall acc,
    for_each (pre ++ itin :: post)
      (fun itin flights =>
         r <- normalize t itin ;; ret (append_flight flights r)) acc w = Err e.
Proof.
  intros Hpre Herr acc. rewrite for_each_app.
  destruct (parse_loop_total _ _ _ Hpre acc) as (acc' & ->). simpl.
  apply bind_err. now apply bind_err.
Qed.

Lemma parse_flights_inv data w flights :
  parse data w = Ok flights ->
  exists t itins,
    build_tables data w = Ok t /\ itineraries_of data = Ok itins /\
    for_each itins
      (fun itin flights =>
         r <- normalize t itin ;; ret (append_flight flights r)) [] w
    = Ok flights.
Proof.
  unfold parse_flights. intros H.
  apply bind_inv in H. destruct H as (t & Ht & H).
  apply bind_inv in H. destruct H as (itins & Hi & H).
  exists t, itins. auto.
Qed.

Lemma parse_flights_run data w t itins :
  build_tables data w = Ok t -> itineraries_of data = Ok itins ->
  parse data w =
  for_each itins
    (fun itin flights =>
       r <- normalize t itin ;; ret (append_flight flights r)) [] w.
Proof.
  intros Ht Hi. unfold parse_flights.
  rewrite (bind_ok _ _ _ t Ht). now rewrite (bind_ok _ _ _ itins Hi).
Qed.

(** Any itinerary that raises leaves [parse_flights] without a result. *)
Lemma parse_aborts data w t itins itin e :
  build_tables data w = Ok t -> itineraries_of data = Ok itins ->
  In itin itins -> normalize t itin w = Err e ->
  exists e', parse data w = Err e'.
Proof.
  intros Ht Hi Hin Herr.
  destruct (parse data w) as [flights|e'] eqn:Hp; [|now exists e'].
  rewrite (parse_flights_run _ _ _ _ Ht Hi) in Hp.
  apply parse_loop_inv in Hp. destruct Hp as (Hall & _).
  rewrite Forall_forall in Hall. destruct (Hall _ Hin) as (r & Hr).
  congruence.
Qed.


Lemma Forall2_right {A B} (R : A -> B -> Prop) (P : B -> Prop) xs ys :
  (forall x y, R x y -> P y) -> Forall2 R xs ys -> Forall P ys.
Proof. intros HR. induction 1; constructor; eauto. Qed.

(** *** A resolvable round trip is normalised *)

Lemma place_code_total t x field w :
  place_ok t x field -> returns (place_code t x field) w.
Proof.
  intros (pid & place & code & Hpid & Hplace & Hcode). exists code.
  unfold place_code, bind, lift. now rewrite Hpid, Hplace.
Qed.

Lemma instant_total x field w :
  instant_ok fromisoformat x field -> returns (instant fromisoformat x field) w.
Proof.
  intros (s & d & Hs & Hd). exists d.
  unfold instant, bind, lift. rewrite Hs. simpl. now rewrite Hd.
Qed.

Lemma expand_segment_total t sid w :
  segment_ok fromisoformat t sid ->
  returns (expand_segment fromisoformat t sid) w.
Proof.
  intros (seg & cid & carrier & name & code & number & dur & Hseg & Hcid
          & Hcar & Hname & Hcode & Hnum & Ho & Hd & Hdep & Harr & Hdur).
  destruct (place_code_total _ _ _ w Ho) as (orig & Horig).
  destruct (place_code_total _ _ _ w Hd) as (dest & Hdest).
  destruct (instant_total _ _ w Hdep) as (dep & Hdep').
  destruct (instant_total _ _ w Harr) as (arr & Harr').
  eexists. unfold expand_segment, bind, lift, ret.
  rewrite Hseg, Hcid, Hcar, Hname, Hcode, Hnum, Horig, Hdest, Hdep', Harr', Hdur.
  reflexivity.
Qed.

Lemma segments_loop_total t w sids :
  Forall (segment_ok fromisoformat t) sids ->
  forall acc,
    returns (for_each sids
               (fun sid acc => s <- expand_segment fromisoformat t sid ;;
                               ret (acc ++ [s])) acc) w.
Proof.
  induction 1 as [|sid sids Hsid _ IH]; intros acc; simpl.
  - now exists acc.
  - destruct (expand_segment_total _ _ w Hsid) as (s & Hs).
    destruct (IH (acc ++ [s])) as (out & Hout). exists out.
    rewrite (bind_ok _ _ _ (acc ++ [s])); [exact Hout|].
    now rewrite (bind_ok _ _ _ s).
Qed.

Lemma format_leg_total t leg w :
  leg_ok fromisoformat t leg -> returns (format_leg fromisoformat t leg) w.
Proof.
  intros (Ho & Hd & (sids & sid_list & Hsids & Hlist & Hsegs) & Hdep & Harr
          & dur & Hdur).
  destruct (place_code_total _ _ _ w Ho) as (orig & Horig).
  destruct (place_code_total _ _ _ w Hd) as (dest & Hdest).
  destruct (segments_loop_total _ w _ Hsegs []) as (segs & Hsegs').
  destruct (instant_total _ _ w Hdep) as (dep & Hdep').
  destruct (instant_total _ _ w Harr) as (arr & Harr').
  eexists. unfold format_leg, bind, lift, ret.
  rewrite Horig, Hdest, Hsids, Hlist.
  unfold bind, ret in Hsegs'. rewrite Hsegs', Hdep', Harr', Hdur.
  reflexivity.
Qed.

Lemma normalize_total t itin w price :
  first_price itin = Ok price -> is_round_trip itin = true ->
  resolvable fromisoformat t itin ->
  exists f, normalize t itin w = Ok (Some f).
Proof.
  intros Hp Hrt (ids & lid0 & lid1 & leg0 & leg1 & Hids & H0 & H1 & Hl0 & Hl1
                 & Hok0 & Hok1).
  destruct (format_leg_total _ _ w Hok0) as (ob & Hob).
  destruct (format_leg_total _ _ w Hok1) as (rt & Hrt').
  unfold is_round_trip in Hrt.
  destruct (leg_count itin) as [n|] eqn:Hn; [|discriminate Hrt].
  eexists. unfold normalize_itinerary, leg_at, bind, lift, ret.
  rewrite Hp, Hn, Hrt. simpl.
  rewrite Hids, H0, Hl0, H1, Hl1, Hob, Hrt'. reflexivity.
Qed.


(** *** The payload's structure and the accessors of the code *)


Lemma first_price_first_amount itin amount :
  first_price itin = Ok amount -> first_amount itin amount.
Proof.
  unfold first_price, first_amount, pricing_options_of, amount_of.
  destruct itin; try discriminate. simpl.
  destruct (assoc "pricing_options" d) as [options|]; [|discriminate].
  destruct options; try discriminate.
  - destruct s; discriminate.
  - destruct l as [|first rest]; [discriminate|]. simpl.
    destruct first; try discriminate. simpl.
    destruct (assoc "price" d0) as [price|] eqn:Hprice; [|discriminate].
    destruct price; try discriminate. simpl.
    destruct (assoc "amount" d1) as [a|] eqn:Ha; [|discriminate].
    intros H. injection H as <-.
    exists (VDict d0), rest. simpl. rewrite Hprice. auto.
Qed.

Lemma leg_ids_of_getitem itin ids :
  leg_ids_of itin = Some ids -> getitem_str itin "leg_ids" = Ok (VList ids).
Proof.
  destruct itin; try discriminate. simpl.
  destruct (assoc "leg_ids" d) as [[]|]; try discriminate.
  now intros H; injection H as ->.
Qed.

Lemma leg_ids_of_count itin ids :
  leg_ids_of itin = Some ids ->
  leg_count itin = Ok (Z.of_nat (List.length ids)) /\
  is_round_trip itin = two_leg_ids itin.
Proof.
  intros H. pose proof (leg_ids_of_getitem _ _ H) as Hget.
  assert (Hcount : leg_count itin = Ok (Z.of_nat (List.length ids)))
    by (unfold leg_count; now rewrite Hget).
  split; [exact Hcount|].
  unfold is_round_trip, two_leg_ids. rewrite Hcount, H.
  destruct (Nat.eqb_spec (List.length ids) 2) as [->|Hne]; [reflexivity|].
  apply Z.eqb_neq. lia.
Qed.

(** *** A record says what the payload holds *)










(** C5. Every record of the output carries, as [price_usd], the amount
    that the entry at index 0 of the [pricing_options] array of its
    itinerary holds under [price], [amount]; the entries after it have no
    part in it, whatever their amounts.  The records answer, in order, the
    itineraries that pass the test on [leg_ids], which for a [leg_ids]
    array is the test that its length is 2. *)
Theorem price_is_first_pricing_option (data : value) (w : ambient)
  (flights : list NormalizedItinerary) :
  parse data w = Ok flights ->
  exists itins,
    itineraries_of data = Ok itins /\
    Forall2
      (fun itin f =>
         exists first rest,
           pricing_options_of itin = Some (first :: rest) /\
           amount_of first = Some (price_usd f))
      (filter is_round_trip itins) flights /\
    (forall itin ids,
       leg_ids_of itin = Some ids ->
       is_round_trip itin = Nat.eqb (List.length ids) 2).
Proof.
  intros H. apply parse_flights_inv in H.
  destruct H as (t & itins & _ & Hi & Hrun).
  exists itins. split; [exact Hi|]. split.
  - apply parse_loop_inv in Hrun. destruct Hrun as (_ & fs & -> & Hfs).
    simpl. revert Hfs. apply Forall2_impl. intros itin f Hn.
    apply normalize_inv in Hn. destruct Hn as (price & n & Hp & _ & Hr).
    destruct (n =? 2); [|discriminate Hr].
    destruct Hr as (ol & rl & ob & rt & _ & _ & _ & _ & Hf).
    injection Hf as ->. simpl.
    exact (first_price_first_amount _ _ Hp).
  - intros itin ids Hids.
    rewrite (proj2 (leg_ids_of_count _ _ Hids)).
    unfold two_leg_ids. now rewrite Hids.
Qed.

(** C6. Directness invariant: in every record of the output, the outbound
    leg and the return leg have [is_direct] true exactly when they have one
    segment. *)
Theorem is_direct_iff_one_segment (data : value) (w : ambient)
  (flights : list NormalizedItinerary) :
  parse data w = Ok flights ->
  Forall (fun f => direct_iff_one_segment (outbound f) /\
                   direct_iff_one_segment (return_ f)) flights.
Proof.
  intros H. apply parse_flights_inv in H.
  destruct H as (t & itins & _ & _ & Hrun).
  apply parse_loop_inv in Hrun. destruct Hrun as (_ & fs & -> & Hfs).
  simpl. revert Hfs. apply Forall2_right. intros itin f Hn.
  apply normalize_inv in Hn. destruct Hn as (price & n & _ & _ & Hr).
  destruct (n =? 2); [|discriminate Hr].
  destruct Hr as (ol & rl & ob & rt & _ & _ & Hob & Hrt & Hf).
  injection Hf as ->. simpl.
  apply format_leg_direct in Hob, Hrt. unfold direct_iff_one_segment.
  rewrite Hob, Hrt. split; apply Nat.eqb_eq.
Qed.

(** C9. The price is read before the leg count is looked at: an itinerary
    whose [pricing_options] array is empty makes [parse_flights] raise,
    whatever its [leg_ids] are, and the exception is [IndexError] when the
    tables were built and the itineraries before it went through. *)
Theorem empty_pricing_options_raises (data : value) (w : ambient)
  (pre post : list value) (itin : value) :
  itineraries_of data = Ok (pre ++ itin :: post) ->
  getitem_str itin "pricing_options" = Ok (VList []) ->
  (exists e, parse data w = Err e) /\
  (forall t,
     build_tables data w = Ok t ->
     Forall (fun itin' => returns (normalize t itin') w) pre ->
     parse data w = Err IndexError).
Proof.
  intros Hi Hpo.
  assert (Herr : forall t, normalize t itin w = Err IndexError).
  { intros t. unfold normalize_itinerary. apply bind_err.
    unfold lift, first_price. now rewrite Hpo. }
  split.
  - destruct (build_tables data w) as [t|e] eqn:Ht.
    + apply (parse_aborts _ _ _ _ itin IndexError Ht Hi); [|apply Herr].
      apply in_or_app. right. now left.
    + exists e. unfold parse_flights. now apply bind_err.
  - intros t Ht Hpre. rewrite (parse_flights_run _ _ _ _ Ht Hi).
    now apply parse_loop_err.
Qed.


(** *** Absent top-level keys *)

Lemma assoc_app k d d' :
  assoc k (d ++ d') =
  match assoc k d with
  | Some x => Some x
  | None => assoc k d'
  end.
Proof.
  induction d as [|[k' v] d IH]; simpl; [reflexivity|].
  destruct (String.eqb k' k); [reflexivity | exact IH].
Qed.

Lemma dict_get_absent d key k :
  assoc key d = None ->
  dict_get (VDict (d ++ [(key, VList [])])) k (VList []) =
  dict_get (VDict d) k (VList []).
Proof.
  intros Habs. simpl. rewrite assoc_app. destruct (assoc k d) eqn:Hk.
  - reflexivity.
  - simpl. destruct (String.eqb key k); reflexivity.
Qed.

(** C10. A top-level key that is absent behaves as if it were there with
    an empty array: the lookup table built from it is empty, the outcome of
    [parse_flights] is the one of the payload with [key: []] added, and a
    payload with no [itineraries] key, once its tables are built,
    normalises to the empty list. *)
Theorem absent_key_is_empty_array (d : list (string * value)) (key : string)
  (w : ambient) :
  assoc key d = None ->
  lookup_of (VDict d) key w = Ok [] /\
  parse (VDict d) w = parse (VDict (d ++ [(key, VList [])])) w /\
  (key = "itineraries" ->
   forall t, build_tables (VDict d) w = Ok t -> parse (VDict d) w = Ok []).
Proof.
  intros Habs. split; [|split].
  - unfold lookup_of, bind, lift. simpl. now rewrite Habs.
  - pose proof (dict_get_absent d key) as Hget.
    unfold parse_flights, build_tables, lookup_of, itineraries_of, bind, lift.
    now rewrite !Hget.
  - intros -> t Ht.
    rewrite (parse_flights_run _ _ t [] Ht); [reflexivity|].
    unfold itineraries_of. simpl. now rewrite Habs.
Qed.

(** *** References of a record that was produced *)

Lemma leg_at_inv t itin i w leg :
  leg_at t itin i w = Ok leg ->
  exists ids lid,
    getitem_str itin "leg_ids" = Ok ids /\ getitem_int ids i = Ok lid /\
    table_getitem (legs_lookup t) lid = Ok leg.
Proof. unfold leg_at. intros H. py_inv H. eauto. Qed.

Lemma place_code_inv t x field w code :
  place_code t x field w = Ok code ->
  exists pid place,
    getitem_str x field = Ok pid /\
    table_getitem (places_lookup t) pid = Ok place.
Proof. unfold place_code. intros H. py_inv H. eauto. Qed.

Lemma place_field_resolved t x w c1 c2 field pid :
  place_code t x "origin_place_id" w = Ok c1 ->
  place_code t x "destination_place_id" w = Ok c2 ->
  place_field field -> getitem_str x field = Ok pid ->
  exists place, table_getitem (places_lookup t) pid = Ok place.
Proof.
  intros H1 H2 [-> | ->] Hpid.
  - apply place_code_inv in H1. destruct H1 as (pid' & place & Hp & Hr).
    exists place. congruence.
  - apply place_code_inv in H2. destruct H2 as (pid' & place & Hp & Hr).
    exists place. congruence.
Qed.

Lemma expand_segment_inv t sid w s :
  expand_segment fromisoformat t sid w = Ok s ->
  exists seg cid carrier,
    table_getitem (segments_lookup t) sid = Ok seg /\
    getitem_str seg "marketing_carrier_id" = Ok cid /\
    table_getitem (carriers_lookup t) cid = Ok carrier /\
    forall field pid,
      place_field field -> getitem_str seg field = Ok pid ->
      exists place, table_getitem (places_lookup t) pid = Ok place.
Proof.
  unfold expand_segment. intros H.
  apply bind_inv in H. destruct H as (seg & Hseg & H).
  apply bind_inv in H. destruct H as (cid & Hcid & H).
  apply bind_inv in H. destruct H as (carrier & Hcar & H).
  apply bind_inv in H. destruct H as (name & _ & H).
  apply bind_inv in H. destruct H as (code & _ & H).
  apply bind_inv in H. destruct H as (number & _ & H).
  apply bind_inv in H. destruct H as (orig & Ho & H).
  apply bind_inv in H. destruct H as (dest & Hd & _).
  exists seg, cid, carrier. repeat split; try assumption.
  intros field pid. apply (place_field_resolved _ _ w orig dest); assumption.
Qed.

Lemma segments_loop_inv t w sids :
  forall acc out,
    for_each sids
      (fun sid acc => s <- expand_segment fromisoformat t sid ;;
                      ret (acc ++ [s])) acc w = Ok out ->
    Forall (fun sid => returns (expand_segment fromisoformat t sid) w) sids.
Proof.
  induction sids as [|sid sids IH]; intros acc out H; [constructor|].
  simpl in H. apply bind_inv in H. destruct H as (acc' & Hbody & H).
  apply bind_inv in Hbody. destruct Hbody as (s & Hs & _).
  constructor; [now exists s | now apply IH in H].
Qed.

Lemma format_leg_inv t leg w l :
  format_leg fromisoformat t leg w = Ok l ->
  (forall field pid,
     place_field field -> getitem_str leg field = Ok pid ->
     exists place, table_getitem (places_lookup t) pid = Ok place) /\
  exists sids sid_list,
    getitem_str leg "segment_ids" = Ok sids /\ py_iter sids = Ok sid_list /\
    Forall (fun sid => returns (expand_segment fromisoformat t sid) w)
      sid_list.
Proof.
  unfold format_leg. intros H.
  apply bind_inv in H. destruct H as (orig & Ho & H).
  apply bind_inv in H. destruct H as (dest & Hd & H).
  apply bind_inv in H. destruct H as (sids & Hsids & H).
  apply bind_inv in H. destruct H as (sid_list & Hlist & H).
  apply bind_inv in H. destruct H as (segs & Hsegs & _).
  split.
  - intros field pid. apply (place_field_resolved _ _ w orig dest); assumption.
  - exists sids, sid_list. repeat split; try assumption.
    now apply segments_loop_inv in Hsegs.
Qed.

Section Produced.

Variables (t : tables) (itin : value) (w : ambient) (f : NormalizedItinerary).
Hypothesis Hproduced : normalize t itin w = Ok (Some f).

Lemma produced_leg leg :
  leg_of t itin leg -> returns (format_leg fromisoformat t leg) w.
Proof.
  intros Hof. destruct Hof as [i ids lid leg Hi Hids Hlid Hleg].
  pose proof Hproduced as H. apply normalize_inv in H.
  destruct H as (price & n & _ & _ & H).
  destruct (n =? 2); [|discriminate H].
  destruct H as (ol & rl & ob & rt & Hol & Hrl & Hob & Hrt & _).
  apply leg_at_inv in Hol, Hrl.
  destruct Hol as (ids0 & lid0 & Hids0 & Hlid0 & Hol).
  destruct Hrl as (ids1 & lid1 & Hids1 & Hlid1 & Hrl).
  destruct Hi as [-> | ->].
  - exists ob. replace leg with ol by congruence. exact Hob.
  - exists rt. replace leg with rl by congruence. exact Hrt.
Qed.

Lemma produced_segment seg :
  segment_of t itin seg ->
  exists sid,
    table_getitem (segments_lookup t) sid = Ok seg /\
    returns (expand_segment fromisoformat t sid) w.
Proof.
  intros Hof. destruct Hof as [leg sids sid seg sid_list Hleg Hsids Hlist Hin Hseg].
  apply produced_leg in Hleg. destruct Hleg as (l & Hl).
  apply format_leg_inv in Hl.
  destruct Hl as (_ & sids' & list' & Hsids' & Hlist' & Hall).
  exists sid. split; [exact Hseg|].
  rewrite Forall_forall in Hall. apply Hall.
  replace list' with sid_list by congruence. exact Hin.
Qed.

(** A record is produced only if every identifier the round trip
    references resolves in its table. *)
Lemma produced_resolves tbl k :
  refers t itin tbl k -> exists v, table_getitem tbl k = Ok v.
Proof.
  intros Href.
  destruct Href as [i ids lid Hi Hids Hlid
                   | leg pid field Hleg Hfield Hpid
                   | leg sids sid sid_list Hleg Hsids Hlist Hin
                   | seg cid Hseg Hcid
                   | seg pid field Hseg Hfield Hpid].
  - pose proof Hproduced as H. apply normalize_inv in H.
    destruct H as (price & n & _ & _ & H).
    destruct (n =? 2); [|discriminate H].
    destruct H as (ol & rl & ob & rt & Hol & Hrl & _).
    apply leg_at_inv in Hol, Hrl.
    destruct Hol as (ids0 & lid0 & Hids0 & Hlid0 & Hol).
    destruct Hrl as (ids1 & lid1 & Hids1 & Hlid1 & Hrl).
    destruct Hi as [-> | ->].
    + exists ol. replace lid with lid0 by congruence. exact Hol.
    + exists rl. replace lid with lid1 by congruence. exact Hrl.
  - apply produced_leg in Hleg. destruct Hleg as (l & Hl).
    apply format_leg_inv in Hl. destruct Hl as (Hplaces & _). eauto.
  - apply produced_leg in Hleg. destruct Hleg as (l & Hl).
    apply format_leg_inv in Hl.
    destruct Hl as (_ & sids' & list' & Hsids' & Hlist' & Hall).
    rewrite Forall_forall in Hall.
    assert (Hin' : In sid list') by (replace list' with sid_list by congruence;
                                     exact Hin).
    destruct (Hall _ Hin') as (s & Hs). apply expand_segment_inv in Hs.
    destruct Hs as (seg & _ & _ & Hseg & _). now exists seg.
  - apply produced_segment in Hseg. destruct Hseg as (sid & Hsid & s & Hs).
    apply expand_segment_inv in Hs.
    destruct Hs as (seg' & cid' & carrier & Hseg' & Hcid' & Hcar & _).
    exists carrier. replace cid with cid' by congruence. exact Hcar.
  - apply produced_segment in Hseg. destruct Hseg as (sid & Hsid & s & Hs).
    apply expand_segment_inv in Hs.
    destruct Hs as (seg' & _ & _ & Hseg' & _ & _ & Hplaces).
    apply (Hplaces field); [exact Hfield|].
    replace seg' with seg by congruence. exact Hpid.
Qed.

End Produced.


Lemma table_getitem_unresolved tbl k :
  table_find tbl k = None ->
  table_getitem tbl k = Err (if hashable k then KeyError k else TypeError).
Proof.
  intros Hfind. unfold table_getitem. rewrite Hfind.
  now destruct (hashable k).
Qed.

(** C2, as the code has it.  An identifier that a round trip references
    and that its table does not hold is answered by Python's own
    [KeyError], which carries the identifier (and not the kind); the round
    trip then raises, and so does [parse_flights]: the whole batch is
    lost, with the exception of the first itinerary that raised. *)
Theorem unresolved_reference_aborts_batch (data : value) (w : ambient)
  (t : tables) (itins : list value) (itin : value) (tbl : table) (k : value) :
  build_tables data w = Ok t ->
  itineraries_of data = Ok itins ->
  In itin itins ->
  is_round_trip itin = true ->
  refers t itin tbl k ->
  table_find tbl k = None ->
  (hashable k = true -> table_getitem tbl k = Err (KeyError k)) /\
  (exists e, normalize t itin w = Err e) /\
  (exists e, parse data w = Err e) /\
  (forall pre post e,
     itins = pre ++ itin :: post ->
     Forall (fun itin' => returns (normalize t itin') w) pre ->
     normalize t itin w = Err e ->
     parse data w = Err e).
Proof.
  intros Ht Hi Hin Hrt Href Hfind.
  pose proof (table_getitem_unresolved _ _ Hfind) as Hget.
  assert (Herr : exists e, normalize t itin w = Err e).
  { destruct (normalize t itin w) as [r|e] eqn:Hn; [|now exists e].
    pose proof (normalize_round_trip _ _ _ _ Hn) as Hr.
    rewrite Hrt in Hr. destruct Hr as (f & ->).
    destruct (produced_resolves _ _ _ _ Hn _ _ Href) as (v & Hv).
    rewrite Hget in Hv. discriminate Hv. }
  split; [|split; [|split]].
  - intros Hh. now rewrite Hh in Hget.
  - exact Herr.
  - destruct Herr as (e & He). exact (parse_aborts _ _ _ _ _ _ Ht Hi Hin He).
  - intros pre post e -> Hpre He.
    rewrite (parse_flights_run _ _ _ _ Ht Hi). now apply parse_loop_err.
Qed.

End NormalizationFacts.

(** ** Selection *)

Lemma Qlt_bool_iff x y : Qlt_bool x y = true <-> (x < y)%Q.
Proof.
  unfold Qlt_bool. rewrite negb_true_iff. split.
  - intros H. apply Qnot_le_lt. intros Hle.
    apply Qle_bool_iff in Hle. congruence.
  - intros H. destruct (Qle_bool y x) eqn:Hle; [|reflexivity].
    apply Qle_bool_iff in Hle. now apply Qlt_not_le in H.
Qed.

Lemma Qlt_bool_false x y : Qlt_bool x y = false -> (y <= x)%Q.
Proof.
  intros H. apply Qnot_lt_le. intros Hlt.
  apply Qlt_bool_iff in Hlt. congruence.
Qed.

Lemma py_lt_numbers a b x y :
  as_number a = Some x -> as_number b = Some y ->
  py_lt a b = Ok (Qlt_bool x y).
Proof.
  destruct a; try discriminate; destruct b; try discriminate;
    simpl; intros Ha Hb; injection Ha as <-; injection Hb as <-; reflexivity.
Qed.

Lemma is_number_value v : is_number v = true -> exists q, as_number v = Some q.
Proof.
  unfold is_number. destruct (as_number v) as [q|]; [eauto | discriminate].
Qed.

Section Selection.

Context {A : Type} (key : A -> value) (w : ambient).

Local Notation first_minimum := (first_minimum key).

Lemma first_minimum_snoc_keep xs i best x p q :
  first_minimum xs i best ->
  as_number (key best) = Some p -> as_number (key x) = Some q ->
  (p <= q)%Q ->
  first_minimum (xs ++ [x]) i best.
Proof.
  intros (Hi & p' & Hp' & Hmin) Hp Hq Hle.
  assert (Hlt : (i < List.length xs)%nat)
    by (apply nth_error_Some; congruence).
  split; [now rewrite nth_error_app1|].
  exists p'. split; [exact Hp'|]. intros j y r Hj Hr.
  destruct (Nat.lt_ge_cases j (List.length xs)) as [Hj'|Hj'].
  - rewrite nth_error_app1 in Hj by exact Hj'. eauto.
  - rewrite nth_error_app2 in Hj by exact Hj'.
    destruct (j - List.length xs)%nat as [|n] eqn:Hd;
      [|destruct n; discriminate Hj].
    injection Hj as <-. split; [congruence | lia].
Qed.

Lemma first_minimum_snoc_replace xs i best x p q :
  first_minimum xs i best ->
  as_number (key best) = Some p -> as_number (key x) = Some q ->
  (q < p)%Q ->
  first_minimum (xs ++ [x]) (List.length xs) x.
Proof.
  intros (Hi & p' & Hp' & Hmin) Hp Hq Hlt.
  assert (p' = p) by congruence. subst p'.
  split; [rewrite nth_error_app2, Nat.sub_diag by lia; reflexivity|].
  exists q. split; [exact Hq|]. intros j y r Hj Hr.
  destruct (Nat.lt_ge_cases j (List.length xs)) as [Hj'|Hj'].
  - rewrite nth_error_app1 in Hj by exact Hj'.
    destruct (Hmin _ _ _ Hj Hr) as (Hle & _).
    assert (q < r)%Q by (eapply Qlt_le_trans; eassumption).
    split; [now apply Qlt_le_weak | auto].
  - rewrite nth_error_app2 in Hj by exact Hj'.
    destruct (j - List.length xs)%nat as [|n] eqn:Hd;
      [|destruct n; discriminate Hj].
    injection Hj as <-. assert (r = q) by congruence. subst r.
    split; [apply Qle_refl | lia].
Qed.

Lemma min_scan_first_minimum rest :
  forall seen i best,
    first_minimum seen i best ->
    Forall (fun x => is_number (key x) = true) rest ->
    exists i' best',
      min_scan key rest best w = Ok best' /\
      first_minimum (seen ++ rest) i' best'.
Proof.
  induction rest as [|x rest IH]; intros seen i best Hbest Hnum.
  - exists i, best. now rewrite app_nil_r.
  - inversion Hnum as [|? ? Hx Hrest]; subst.
    apply is_number_value in Hx. destruct Hx as (q & Hq).
    pose proof Hbest as (_ & p & Hp & _).
    simpl. rewrite (bind_ok _ _ _ (Qlt_bool q p));
      [|exact (py_lt_numbers _ _ _ _ Hq Hp)].
    replace (seen ++ x :: rest) with ((seen ++ [x]) ++ rest)
      by (rewrite <- app_assoc; reflexivity).
    destruct (Qlt_bool q p) eqn:Hlt.
    + apply Qlt_bool_iff in Hlt.
      apply (IH _ (List.length seen)); [|exact Hrest].
      exact (first_minimum_snoc_replace _ _ _ _ _ _ Hbest Hp Hq Hlt).
    + apply Qlt_bool_false in Hlt.
      apply (IH _ i); [|exact Hrest].
      exact (first_minimum_snoc_keep _ _ _ _ _ _ Hbest Hp Hq Hlt).
Qed.

End Selection.

(** C1. Selection.  The empty sequence gives [None], with no exception.  A
    non-empty sequence whose prices are numbers gives one of its entries,
    whose price is the least of the sequence, and which is the first entry
    to have that price. *)
Theorem get_cheapest_flight_first_minimum {A : Type} {PA : Priced A}
  (flights : list A) (w : ambient) :
  get_cheapest_flight (@nil A) w = Ok None /\
  (flights <> [] ->
   Forall (fun x => is_number (price_of x) = true) flights ->
   exists i best,
     get_cheapest_flight flights w = Ok (Some best) /\
     first_minimum price_of flights i best).
Proof.
  split; [reflexivity|].
  intros Hne Hnum. destruct flights as [|x rest]; [congruence|].
  inversion Hnum as [|? ? Hx Hrest]; subst.
  apply is_number_value in Hx. destruct Hx as (p & Hp).
  assert (Hfirst : first_minimum price_of [x] 0 x).
  { split; [reflexivity|]. exists p. split; [exact Hp|].
    intros [|[|j]] y q Hj Hq; try discriminate Hj.
    injection Hj as <-. assert (q = p) by congruence. subst q.
    split; [apply Qle_refl | lia]. }
  destruct (min_scan_first_minimum price_of w rest [x] 0%nat x Hfirst Hrest)
    as (i & best & Hscan & Hmin).
  exists i, best. split; [|exact Hmin].
  unfold get_cheapest_flight, py_min. now rewrite (bind_ok _ _ _ best Hscan).
Qed.

(** ** Compression *)

Section Compression.

Variable py_str : value -> string.

Lemma slice_to_nonneg {A} (xs : list A) n :
  0 <= n -> slice_to xs n = firstn (Z.to_nat n) xs.
Proof.
  intros Hn. unfold slice_to.
  destruct (n <? 0) eqn:Hneg; [apply Z.ltb_lt in Hneg; lia | reflexivity].
Qed.

(** C3. Compression bound.  For a maximum count [N >= 0] the result has
    [min N (len flights)] entries, and entry [i] is the compression of
    input [i], with its price: the first entries, in input order, whatever
    their prices are. *)
Theorem simplify_parsed_flights_bound (flights : list NormalizedItinerary)
  (N : Z) (w : ambient) :
  0 <= N ->
  exists out,
    simplify_parsed_flights py_str flights N w = Ok out /\
    Z.of_nat (List.length out) = Z.min N (Z.of_nat (List.length flights)) /\
    out = map (simplify_one py_str) (firstn (List.length out) flights) /\
    forall i c,
      nth_error out i = Some c ->
      exists f,
        nth_error flights i = Some f /\ c = simplify_one py_str f /\
        c_price_usd c = price_usd f.
Proof.
  intros HN.
  exists (map (simplify_one py_str) (firstn (Z.to_nat N) flights)).
  assert (Hlen : List.length
                   (map (simplify_one py_str) (firstn (Z.to_nat N) flights))
                 = Nat.min (Z.to_nat N) (List.length flights))
    by (rewrite length_map; apply length_firstn).
  split; [|split; [|split]].
  - unfold simplify_parsed_flights. rewrite slice_to_nonneg by exact HN.
    apply (for_each_append_map (simplify_one py_str)).
  - rewrite Hlen. lia.
  - rewrite Hlen. f_equal.
    destruct (Nat.le_ge_cases (Z.to_nat N) (List.length flights)) as [H|H].
    + now rewrite Nat.min_l.
    + rewrite Nat.min_r by exact H.
      now rewrite !firstn_all2.
  - intros i c Hc. rewrite nth_error_map in Hc.
    destruct (nth_error (firstn (Z.to_nat N) flights) i) as [f|] eqn:Hf;
      [|discriminate Hc].
    injection Hc as <-. exists f. repeat split.
    rewrite nth_error_firstn in Hf.
    destruct (i <? Z.to_nat N)%nat; [exact Hf | discriminate Hf].
Qed.

End Compression.

(** ** Presentation *)

Lemma append_assoc (a b c : string) : (a +++ b) +++ c = a +++ b +++ c.
Proof. induction a as [|x a IH]; simpl; [reflexivity | now rewrite IH]. Qed.

Lemma append_nil_r (a : string) : a +++ "" = a.
Proof. induction a as [|x a IH]; simpl; [reflexivity | now rewrite IH]. Qed.

Lemma strftime_date_clock12 d :
  strftime d "%Y-%m-%d %I:%M %p" = date_of d +++ " " +++ clock12 d.
Proof.
  unfold date_of, clock12. rewrite !append_assoc.
  change (strftime d "%Y-%m-%d %I:%M %p") with
    (zfill 4 (nat_to_string (year d)) +++ "-"
     +++ zfill 2 (nat_to_string (month d)) +++ "-"
     +++ zfill 2 (nat_to_string (day d)) +++ " "
     +++ zfill 2 (nat_to_string (hour12 (hour d))) +++ ":"
     +++ zfill 2 (nat_to_string (minute d)) +++ " " +++ am_pm (hour d) +++ "").
  now rewrite append_nil_r.
Qed.

Lemma hour12_twelve_hour d : twelve_hour d.
Proof.
  unfold twelve_hour, hour12, am_pm.
  pose proof (Nat.mod_upper_bound (hour d) 12 ltac:(lia)) as Hlt.
  destruct (hour d mod 12)%nat as [|r] eqn:Hr.
  - repeat split; try lia.
    + intros H. apply Nat.ltb_lt in H. now rewrite H.
    + intros H. apply Nat.ltb_ge in H. now rewrite H.
  - repeat split; try lia.
    + now rewrite Nat.mod_small by lia.
    + intros H. apply Nat.ltb_lt in H. now rewrite H.
    + intros H. apply Nat.ltb_ge in H. now rewrite H.
Qed.

Lemma round_half_even_close x :
  (Qabs (x - inject_Z (round_half_even x)) <= 1 # 2)%Q.
Proof.
  pose proof (Qfloor_le x) as Hlo. pose proof (Qlt_floor x) as Hhi.
  apply Qabs_Qle_condition. unfold round_half_even.
  destruct (Qcompare (x - inject_Z (Qfloor x)) (1 # 2)) eqn:Hc;
    [apply Qeq_alt in Hc; destruct (Z.even (Qfloor x))
    |apply Qlt_alt in Hc | apply Qgt_alt in Hc];
    rewrite ?inject_Z_plus in *; change (inject_Z 1) with 1%Q in *;
    remember (inject_Z (Qfloor x)) as f eqn:Hf; clear Hf; lra.
Qed.

Lemma round_half_even_nonneg x : (0 <= x)%Q -> 0 <= round_half_even x.
Proof.
  intros Hx. assert (Hf : 0 <= Qfloor x).
  { change 0 with (Qfloor (inject_Z 0)). now apply Qfloor_resp_le. }
  unfold round_half_even.
  destruct (Qcompare _ _); [destruct (Z.even _)| |]; lia.
Qed.

Lemma two_digits_length c :
  0 <= c < 100 -> String.length (zfill 2 (Z_to_string c)) = 2%nat.
Proof.
  intros Hc.
  assert (H : forall k, (k < 100)%nat ->
                        String.length (zfill 2 (Z_to_string (Z.of_nat k))) = 2%nat).
  { intros k Hk. do 100 (destruct k as [|k]; [reflexivity|]). lia. }
  rewrite <- (Z2Nat.id c) by lia. apply H. lia.
Qed.

Lemma fixed2_two_decimals q : two_decimals q (fixed2 q).
Proof.
  unfold two_decimals, fixed2.
  set (n := round_half_even (Qabs q * 100)).
  assert (Hn : 0 <= n).
  { apply round_half_even_nonneg. pose proof (Qabs_nonneg q). nra. }
  pose proof (Z.mod_pos_bound n 100 ltac:(lia)) as Hcents.
  exists (if Qlt_bool q 0 then "-" else ""), (n / 100), (n mod 100).
  split; [reflexivity|].
  split; [destruct (Qlt_bool q 0); auto|].
  split; [apply Z.div_pos; lia|].
  split; [exact Hcents|].
  split; [now apply two_digits_length|].
  rewrite <- Z.div_mod by lia. apply round_half_even_close.
Qed.

Section PresentationFacts.

Variable py_str : value -> string.

(** C7. Presentation.  On a record whose price is a number that converts
    to a float, [format_flight_for_humans] returns: the text starts with
    [Price: $] and the price with two decimals, then, each after an empty
    line, come the block of the outbound leg and the block of the return
    leg; a block opens with its name and gives departure and arrival as a
    date and a 12-hour reading with AM or PM. *)
Theorem format_flight_for_humans_layout (flight : NormalizedItinerary)
  (q : Q) (w : ambient) :
  to_float (price_usd flight) = Ok q ->
  format_flight_for_humans py_str flight w =
    Ok ("Price: $" +++ fixed2 q +++ newline +++ newline
        +++ humans_format_leg py_str (outbound flight) "Outbound"
        +++ newline +++ newline
        +++ humans_format_leg py_str (return_ flight) "Return") /\
  two_decimals q (fixed2 q) /\
  (forall leg name,
     exists rest,
       humans_format_leg py_str leg name =
         name +++ " Flight:" +++ newline
         +++ "- From " +++ py_str (origin leg)
         +++ " to " +++ py_str (destination leg) +++ newline
         +++ "- Departure: " +++ date_of (departure_time leg) +++ " "
         +++ clock12 (departure_time leg) +++ newline
         +++ "- Arrival: " +++ date_of (arrival_time leg) +++ " "
         +++ clock12 (arrival_time leg) +++ newline +++ rest /\
       twelve_hour (departure_time leg) /\ twelve_hour (arrival_time leg)).
Proof.
  intros Hq. split; [|split].
  - unfold format_flight_for_humans, format_2f.
    rewrite (bind_ok _ _ _ (fixed2 q)); [|unfold lift; now rewrite Hq].
    reflexivity.
  - apply fixed2_two_decimals.
  - intros leg name. eexists. split; [|split; apply hour12_twelve_hour].
    unfold humans_format_leg, humans_leg_lines.
    rewrite !strftime_date_clock12.
    cbn [String.concat app]. rewrite !append_assoc. reflexivity.
Qed.

End PresentationFacts.

(** * The properties at work on the sample payload *)

Lemma get_cheapest_flight_first_minimum_witness :
  exists i best,
    get_cheapest_flight tied_prices sample_ambient = Ok (Some best) /\
    first_minimum price_of tied_prices i best.
Proof.
  apply (proj2 (get_cheapest_flight_first_minimum tied_prices sample_ambient)).
  - discriminate.
  - repeat constructor.
Defined.

(** Of the two entries priced 387.20, the earlier one is returned. *)
Example cheapest_of_tied_prices :
  get_cheapest_flight tied_prices sample_ambient
  = Ok (Some (priced (3872 # 10) "b")).
Proof. reflexivity. Qed.

Example cheapest_of_sample_flights :
  get_cheapest_flight sample_flights sample_ambient = Ok (Some sample_cheapest).
Proof. reflexivity. Qed.

Lemma simplify_parsed_flights_bound_witness :
  exists out,
    simplify_parsed_flights str_simple sample_flights 1 sample_ambient = Ok out /\
    Z.of_nat (List.length out) = Z.min 1 (Z.of_nat (List.length sample_flights)) /\
    out = map (simplify_one str_simple) (firstn (List.length out) sample_flights) /\
    forall i c,
      nth_error out i = Some c ->
      exists f,
        nth_error sample_flights i = Some f /\ c = simplify_one str_simple f /\
        c_price_usd c = price_usd f.
Proof.
  apply (simplify_parsed_flights_bound str_simple sample_flights 1 sample_ambient).
  lia.
Defined.

(** With a count of one the dearer first record is kept, the cheaper
    second one dropped. *)
Example simplify_keeps_input_order :
  exists c,
    simplify_parsed_flights str_simple sample_flights 1 sample_ambient = Ok [c] /\
    c_price_usd c = VFloat (4125 # 10).
Proof. eexists. split; reflexivity. Qed.

(** A negative count is not a bound: [flights[:-1]] drops the last
    record. *)
Remark simplify_negative_count :
  exists c,
    simplify_parsed_flights str_simple sample_flights (-1) sample_ambient
    = Ok [c].
Proof. eexists. reflexivity. Qed.


(** Of the four itineraries, with one, two, three and two leg ids, the
    second and the fourth leave a record, with the amounts 412.50 and
    387.20 of their first pricing options. *)
Example mixed_itineraries_normalized :
  map two_leg_ids mixed_itineraries = [false; true; false; true] /\
  exists f1 f2,
    parse_flights fromisoformat_seconds (sample_payload mixed_itineraries)
      sample_ambient = Ok [f1; f2] /\
    price_usd f1 = VFloat (4125 # 10) /\ price_usd f2 = VFloat (3872 # 10) /\
    map segment_id (segments (return_ f1)) = [VStr "s2"; VStr "s3"] /\
    map segment_id (segments (return_ f2)) = [VStr "s4"].
Proof.
  split; [reflexivity|]. do 2 eexists.
  split; [vm_compute; reflexivity|]. repeat split; reflexivity.
Qed.


Lemma price_is_first_pricing_option_witness :
  exists f1 f2,
    parse_flights fromisoformat_seconds (sample_payload two_round_trips)
      sample_ambient = Ok [f1; f2] /\
    Forall2
      (fun itin f =>
         exists first rest,
           pricing_options_of itin = Some (first :: rest) /\
           amount_of first = Some (price_usd f))
      two_round_trips [f1; f2] /\
    map (option_map (map amount_of)) (map pricing_options_of two_round_trips)
    = [Some [Some (VFloat (4125 # 10)); Some (VFloat (3990 # 10))];
       Some [Some (VFloat (3872 # 10))]] /\
    price_usd f1 = VFloat (4125 # 10) /\ price_usd f2 = VFloat (3872 # 10).
Proof.
  assert (Hrun : parse_flights fromisoformat_seconds
                   (sample_payload two_round_trips) sample_ambient
                 = Ok sample_flights) by (vm_compute; reflexivity).
  destruct (price_is_first_pricing_option fromisoformat_seconds
              (sample_payload two_round_trips) sample_ambient sample_flights
              Hrun) as (itins & Hitins & Hprices & _).
  injection Hitins as <-.
  do 2 eexists. split; [exact Hrun|].
  split; [exact Hprices|]. repeat split; reflexivity.
Defined.

(** The first round trip offers 412.50 and then 399.00: the record carries
    412.50, the amount at index 0, and not the least amount on offer. *)
Example first_option_not_cheapest_option :
  option_map price_usd (nth_error sample_flights 0) = Some (VFloat (4125 # 10)).
Proof. reflexivity. Qed.

Lemma is_direct_iff_one_segment_witness :
  Forall (fun f => direct_iff_one_segment (outbound f) /\
                   direct_iff_one_segment (return_ f)) sample_flights.
Proof.
  apply (is_direct_iff_one_segment fromisoformat_seconds
           (sample_payload two_round_trips) sample_ambient sample_flights).
  vm_compute. reflexivity.
Defined.

Lemma format_flight_for_humans_layout_witness :
  exists rest,
    format_flight_for_humans str_simple sample_cheapest sample_ambient
    = Ok ("Price: $387.20" +++ newline +++ newline
          +++ "Outbound Flight:" +++ newline
          +++ "- From JFK to LHR" +++ newline
          +++ "- Departure: 2025-03-01 06:30 PM" +++ newline
          +++ "- Arrival: 2025-03-02 06:25 AM" +++ newline +++ rest).
Proof.
  destruct (format_flight_for_humans_layout str_simple sample_cheapest
              (3872 # 10) sample_ambient eq_refl) as (Hrun & _).
  rewrite Hrun. eexists. vm_compute. reflexivity.
Defined.

Lemma empty_pricing_options_raises_witness :
  (exists e,
     parse_flights fromisoformat_seconds
       (sample_payload (two_round_trips ++ unpriced_one_way :: two_round_trips))
       sample_ambient = Err e) /\
  parse_flights fromisoformat_seconds
    (sample_payload (two_round_trips ++ unpriced_one_way :: two_round_trips))
    sample_ambient = Err IndexError.
Proof.
  destruct (empty_pricing_options_raises fromisoformat_seconds
              (sample_payload
                 (two_round_trips ++ unpriced_one_way :: two_round_trips))
              sample_ambient two_round_trips two_round_trips unpriced_one_way
              eq_refl eq_refl) as (Hsome & Hfirst).
  split; [exact Hsome|].
  apply (Hfirst sample_tables); [reflexivity|].
  repeat constructor; eexists; vm_compute; reflexivity.
Defined.

Lemma absent_key_is_empty_array_witness :
  lookup_of (VDict [("legs", VList sample_legs)]) "itineraries" sample_ambient
  = Ok [] /\
  parse_flights fromisoformat_seconds (VDict [("legs", VList sample_legs)])
    sample_ambient = Ok [].
Proof.
  destruct (absent_key_is_empty_array fromisoformat_seconds
              [("legs", VList sample_legs)] "itineraries" sample_ambient
              eq_refl) as (Hempty & _ & Hnone).
  split; [exact Hempty|].
  apply (Hnone eq_refl
           (mk_tables (legs_lookup sample_tables) [] [] [])).
  vm_compute. reflexivity.
Defined.

Example empty_payload_normalizes :
  parse_flights fromisoformat_seconds (VDict []) sample_ambient = Ok [].
Proof. reflexivity. Qed.

(** C2 as stated fails: the round trip through the unknown leg [l9] does
    not only lose its own record, it makes [parse_flights] raise
    [KeyError], although the round trip after it normalises when it is
    alone in the payload. *)
Lemma unresolved_leg_loses_batch :
  parse_flights fromisoformat_seconds
    (sample_payload (round_trip_via "l9" :: two_round_trips)) sample_ambient
  = Err (KeyError (VStr "l9")) /\
  parse_flights fromisoformat_seconds (sample_payload two_round_trips)
    sample_ambient = Ok sample_flights /\
  ~ exists flights,
      parse_flights fromisoformat_seconds
        (sample_payload (round_trip_via "l9" :: two_round_trips))
        sample_ambient = Ok flights.
Proof.
  assert (H : parse_flights fromisoformat_seconds
                (sample_payload (round_trip_via "l9" :: two_round_trips))
                sample_ambient = Err (KeyError (VStr "l9")))
    by (vm_compute; reflexivity).
  split; [exact H|]. split; [vm_compute; reflexivity|].
  intros (flights & Hflights). rewrite H in Hflights. discriminate Hflights.
Qed.

Lemma unresolved_reference_aborts_batch_witness :
  table_getitem (legs_lookup sample_tables) (VStr "l9")
  = Err (KeyError (VStr "l9")) /\
  parse_flights fromisoformat_seconds
    (sample_payload (two_round_trips ++ round_trip_via "l9" :: two_round_trips))
    sample_ambient = Err (KeyError (VStr "l9")).
Proof.
  destruct (unresolved_reference_aborts_batch fromisoformat_seconds
              (sample_payload
                 (two_round_trips ++ round_trip_via "l9" :: two_round_trips))
              sample_ambient sample_tables
              (two_round_trips ++ round_trip_via "l9" :: two_round_trips)
              (round_trip_via "l9") (legs_lookup sample_tables) (VStr "l9"))
    as (Hkey & _ & _ & Hfirst).
  - reflexivity.
  - reflexivity.
  - apply in_or_app. right. left. reflexivity.
  - reflexivity.
  - apply (refers_leg sample_tables (round_trip_via "l9") 1
             (VList [VStr "l1"; VStr "l9"]) (VStr "l9"));
      [right; reflexivity | reflexivity | reflexivity].
  - reflexivity.
  - split; [apply Hkey; reflexivity|].
    apply (Hfirst two_round_trips two_round_trips); [reflexivity | |].
    + repeat constructor; eexists; vm_compute; reflexivity.
    + vm_compute. reflexivity.
Defined.

(** The same with a place, a segment and a carrier that no table holds. *)
Example unresolved_place_raises :
  parse_flights fromisoformat_seconds
    (sample_payload (round_trip_via "l4" :: two_round_trips)) sample_ambient
  = Err (KeyError (VStr "p9")).
Proof. vm_compute. reflexivity. Qed.

Example unresolved_segment_raises :
  parse_flights fromisoformat_seconds
    (sample_payload (round_trip_via "l5" :: two_round_trips)) sample_ambient
  = Err (KeyError (VStr "s9")).
Proof. vm_compute. reflexivity. Qed.

Example unresolved_carrier_raises :
  parse_flights fromisoformat_seconds
    (sample_payload (round_trip_via "l6" :: two_round_trips)) sample_ambient
  = Err (KeyError (VStr "c9")).
Proof. vm_compute. reflexivity. Qed.

(** * Further properties of the code *)

(** ** Loops that collect one result per item *)

Section Collect.

Context {A B : Type} (g : A -> py B) (w : ambient).

Lemma for_each_collect_inv xs :
  forall acc out,
    for_each xs (fun x acc => y <- g x ;; ret (acc ++ [y])) acc w = Ok out ->
    exists ys, out = acc ++ ys /\ Forall2 (fun x y => g x w = Ok y) xs ys.
Proof.
  induction xs as [|x xs IH]; intros acc out H; simpl in H.
  - apply ret_inv in H. subst out. exists []. rewrite app_nil_r.
    split; [reflexivity | constructor].
  - apply bind_inv in H. destruct H as (acc' & Hbody & H).
    apply bind_inv in Hbody. destruct Hbody as (y & Hy & Hacc).
    apply ret_inv in Hacc. subst acc'.
    apply IH in H. destruct H as (ys & -> & Hys).
    exists (y :: ys). rewrite <- app_assoc. split; [reflexivity|].
    now constructor.
Qed.

Lemma for_each_collect_run xs ys :
  Forall2 (fun x y => g x w = Ok y) xs ys ->
  forall acc,
    for_each xs (fun x acc => y <- g x ;; ret (acc ++ [y])) acc w
    = Ok (acc ++ ys).
Proof.
  induction 1 as [|x y xs ys Hy _ IH]; intros acc; simpl.
  - now rewrite app_nil_r.
  - rewrite (bind_ok _ _ _ (acc ++ [y])).
    + rewrite IH. now rewrite <- app_assoc.
    + now rewrite (bind_ok _ _ _ y).
Qed.

Lemma for_each_collect_err pre x post e :
  Forall (fun x' => returns (g x') w) pre ->
  g x w = Err e ->
  forall acc,
    for_each (pre ++ x :: post) (fun x acc => y <- g x ;; ret (acc ++ [y]))
      acc w = Err e.
Proof.
  intros Hpre. induction Hpre as [|x' pre (y & Hy) _ IH]; intros Hx acc; simpl.
  - apply bind_err. now apply bind_err.
  - rewrite (bind_ok _ _ _ (acc ++ [y])); [now apply IH|].
    now rewrite (bind_ok _ _ _ y).
Qed.

End Collect.

(** ** The lookup tables *)

Lemma lookup_loop_find w items :
  forall acc t,
    for_each items
      (fun x t => k <- lift (getitem_str x "id") ;; lift (table_setitem t k x))
      acc w = Ok t ->
    forall k,
      table_find t k =
      match last_with_id k items with
      | Some y => Some y
      | None => table_find acc k
      end.
Proof.
  induction items as [|x items IH]; intros acc t H k; simpl in H.
  - apply ret_inv in H. now subst t.
  - apply bind_inv in H. destruct H as (acc' & Hbody & H).
    apply bind_inv in Hbody. destruct Hbody as (kx & Hkx & Hset).
    unfold lift in Hkx, Hset. unfold table_setitem in Hset.
    destruct (hashable kx); [|discriminate Hset].
    injection Hset as <-.
    rewrite (IH _ _ H k). simpl. rewrite Hkx.
    destruct (last_with_id k items); [reflexivity|].
    now destruct (py_eq kx k).
Qed.

Lemma lookup_loop_total w items :
  Forall has_id items ->
  forall acc,
    returns (for_each items
               (fun x t => k <- lift (getitem_str x "id") ;;
                           lift (table_setitem t k x)) acc) w.
Proof.
  induction 1 as [|x items (k & Hk & Hh) _ IH]; intros acc; simpl.
  - now exists acc.
  - destruct (IH ((k, x) :: acc)) as (t & Ht). exists t.
    rewrite (bind_ok _ _ _ ((k, x) :: acc)); [exact Ht|].
    unfold bind, lift, table_setitem. now rewrite Hk, Hh.
Qed.

(** X1. A lookup table answers an identifier with the last item of the
    array that carries it: of two items with equal ids, the later one is
    the one found. *)
Theorem build_lookup_last_binding (items_v : value) (w : ambient) (t : table) :
  build_lookup items_v w = Ok t ->
  exists items,
    py_iter items_v = Ok items /\
    forall k,
      hashable k = true ->
      table_getitem t k =
      match last_with_id k items with
      | Some x => Ok x
      | None => Err (KeyError k)
      end.
Proof.
  unfold build_lookup. intros H.
  apply bind_inv in H. destruct H as (items & Hitems & H).
  exists items. split; [exact Hitems|]. intros k Hk.
  unfold table_getitem. rewrite Hk.
  rewrite (lookup_loop_find _ _ _ _ H k).
  now destruct (last_with_id k items).
Qed.

Lemma build_lookup_without_id w pre dx post :
  Forall has_id pre -> assoc "id" dx = None ->
  build_lookup (VList (pre ++ VDict dx :: post)) w = Err (KeyError (VStr "id")).
Proof.
  intros Hpre Hdx. unfold build_lookup.
  rewrite (bind_ok _ _ _ (pre ++ VDict dx :: post)); [|reflexivity].
  rewrite for_each_app.
  destruct (lookup_loop_total w _ Hpre []) as (t & ->). simpl.
  apply bind_err. apply bind_err. unfold lift. simpl. now rewrite Hdx.
Qed.

Section MoreNormalization.

Variable fromisoformat : string -> option datetime.

Local Notation normalize := (normalize_itinerary fromisoformat).
Local Notation parse := (parse_flights fromisoformat).

(** X2. An item of an array that has no ["id"] makes the table
    construction raise [KeyError('id')], and [parse_flights] with it when
    the item is a leg, whether or not an itinerary refers to it. *)
Theorem item_without_id_raises (d : list (string * value)) (w : ambient)
  (pre post : list value) (dx : list (string * value)) :
  Forall has_id pre ->
  assoc "id" dx = None ->
  build_lookup (VList (pre ++ VDict dx :: post)) w
  = Err (KeyError (VStr "id")) /\
  (assoc "legs" d = Some (VList (pre ++ VDict dx :: post)) ->
   parse (VDict d) w = Err (KeyError (VStr "id"))).
Proof.
  intros Hpre Hdx.
  pose proof (build_lookup_without_id w pre dx post Hpre Hdx) as Hb.
  split; [exact Hb|]. intros Hlegs.
  unfold parse_flights. apply bind_err.
  unfold build_tables. apply bind_err.
  unfold lookup_of. rewrite (bind_ok _ _ _ (VList (pre ++ VDict dx :: post))).
  - exact Hb.
  - unfold lift. simpl. now rewrite Hlegs.
Qed.

(** X3. [parse_flights] reads five keys of the payload and no other: two
    payloads that agree on them have the same outcome. *)
Theorem parse_flights_reads_five_keys (d1 d2 : list (string * value))
  (w : ambient) :
  (forall key, In key top_level_keys -> assoc key d1 = assoc key d2) ->
  parse (VDict d1) w = parse (VDict d2) w.
Proof.
  intros Hagree.
  assert (Hget : forall key, In key top_level_keys ->
                             dict_get (VDict d1) key (VList [])
                             = dict_get (VDict d2) key (VList [])).
  { intros key Hin. simpl. now rewrite (Hagree key Hin). }
  unfold parse_flights, build_tables, lookup_of, itineraries_of, bind, lift.
  rewrite (Hget "legs"), (Hget "places"), (Hget "carriers"),
    (Hget "segments"), (Hget "itineraries");
    try reflexivity; unfold top_level_keys; simpl; tauto.
Qed.

(** X4. A payload that is not an object (an array, a string, a number,
    [null]) has no [get]: [parse_flights] raises [AttributeError]. *)
Theorem parse_flights_not_an_object (data : value) (w : ambient) :
  (forall d, data <> VDict d) -> parse data w = Err AttributeError.
Proof.
  intros Hnot. destruct data; try reflexivity. now destruct (Hnot d).
Qed.

(** X5. [parse_flights] returns only if every itinerary of the payload,
    the ones it passes over included, has a first pricing option with an
    amount and a [leg_ids] that has a length. *)
Theorem parse_flights_needs_price_and_legs (data : value) (w : ambient)
  (flights : list NormalizedItinerary) :
  parse data w = Ok flights ->
  exists itins,
    itineraries_of data = Ok itins /\
    Forall (fun itin => (exists price, first_price itin = Ok price) /\
                        (exists n, leg_count itin = Ok n)) itins.
Proof.
  intros H. apply parse_flights_inv in H.
  destruct H as (t & itins & _ & Hi & Hrun).
  exists itins. split; [exact Hi|].
  apply parse_loop_inv in Hrun. destruct Hrun as (Hall & _).
  rewrite Forall_forall in *. intros itin Hin.
  destruct (Hall _ Hin) as (r & Hr). apply normalize_inv in Hr.
  destruct Hr as (price & n & Hp & Hn & _). eauto.
Qed.

(** *** What a record tells about the payload *)

Lemma instant_ok_inv x field w d :
  instant fromisoformat x field w = Ok d -> instant_ok fromisoformat x field.
Proof.
  unfold instant. intros H. apply bind_inv in H. destruct H as (v & Hv & H).
  unfold lift in Hv, H. destruct v; try discriminate H. simpl in H.
  destruct (fromisoformat s) as [d'|] eqn:Hs; [|discriminate H].
  now exists s, d'.
Qed.

Lemma place_ok_inv t x field w code :
  place_code t x field w = Ok code -> place_ok t x field.
Proof.
  unfold place_code. intros H.
  apply bind_inv in H. destruct H as (pid & Hpid & H).
  apply bind_inv in H. destruct H as (place & Hplace & H).
  now exists pid, place, code.
Qed.

Lemma expand_segment_ok_inv t sid w s :
  expand_segment fromisoformat t sid w = Ok s ->
  segment_ok fromisoformat t sid /\ segment_id s = sid.
Proof.
  unfold expand_segment. intros H.
  apply bind_inv in H. destruct H as (seg & Hseg & H).
  apply bind_inv in H. destruct H as (cid & Hcid & H).
  apply bind_inv in H. destruct H as (carrier & Hcar & H).
  apply bind_inv in H. destruct H as (name & Hname & H).
  apply bind_inv in H. destruct H as (code & Hcode & H).
  apply bind_inv in H. destruct H as (number & Hnum & H).
  apply bind_inv in H. destruct H as (orig & Ho & H).
  apply bind_inv in H. destruct H as (dest & Hd & H).
  apply bind_inv in H. destruct H as (dep & Hdep & H).
  apply bind_inv in H. destruct H as (arr & Harr & H).
  apply bind_inv in H. destruct H as (dur & Hdur & H).
  apply ret_inv in H. subst s. split; [|reflexivity].
  apply place_ok_inv in Ho, Hd. apply instant_ok_inv in Hdep, Harr.
  exists seg, cid, carrier, name, code, number, dur. repeat split; assumption.
Qed.

Lemma expanded_segments t w sids segs :
  Forall2 (fun sid s => expand_segment fromisoformat t sid w = Ok s) sids segs ->
  Forall (segment_ok fromisoformat t) sids /\ map segment_id segs = sids.
Proof.
  induction 1 as [|sid s sids segs Hs _ (IHok & IHid)].
  - split; [constructor | reflexivity].
  - apply expand_segment_ok_inv in Hs. destruct Hs as (Hok & Hid).
    split; [now constructor | simpl; congruence].
Qed.

Lemma format_leg_ok_inv t leg w l :
  format_leg fromisoformat t leg w = Ok l ->
  leg_ok fromisoformat t leg /\
  segment_ids_of leg = Ok (map segment_id (segments l)).
Proof.
  unfold format_leg. intros H.
  apply bind_inv in H. destruct H as (orig & Ho & H).
  apply bind_inv in H. destruct H as (dest & Hd & H).
  apply bind_inv in H. destruct H as (sids & Hsids & H).
  apply bind_inv in H. destruct H as (sid_list & Hlist & H).
  apply bind_inv in H. destruct H as (segs & Hsegs & H).
  apply bind_inv in H. destruct H as (dep & Hdep & H).
  apply bind_inv in H. destruct H as (arr & Harr & H).
  apply bind_inv in H. destruct H as (dur & Hdur & H).
  apply ret_inv in H. subst l. simpl.
  apply for_each_collect_inv in Hsegs. destruct Hsegs as (segs' & -> & Hsegs).
  apply expanded_segments in Hsegs. destruct Hsegs as (Hok & Hid).
  apply place_ok_inv in Ho, Hd. apply instant_ok_inv in Hdep, Harr.
  unfold lift in Hsids, Hlist, Hdur. split.
  - repeat split; try assumption; eauto.
  - unfold segment_ids_of. rewrite Hsids, Hlist. simpl. now rewrite Hid.
Qed.

Lemma normalize_some_inv t itin w f :
  normalize t itin w = Ok (Some f) ->
  (exists price, first_price itin = Ok price) /\
  is_round_trip itin = true /\
  resolvable fromisoformat t itin /\
  exists leg0 leg1,
    leg_at t itin 0 w = Ok leg0 /\ leg_at t itin 1 w = Ok leg1 /\
    segment_ids_of leg0 = Ok (map segment_id (segments (outbound f))) /\
    segment_ids_of leg1 = Ok (map segment_id (segments (return_ f))).
Proof.
  intros H. apply normalize_inv in H.
  destruct H as (price & n & Hp & Hn & H).
  destruct (n =? 2) eqn:Hn2; [|discriminate H].
  destruct H as (ol & rl & ob & rt & Hol & Hrl & Hob & Hrt & Hf).
  injection Hf as ->. simpl.
  apply format_leg_ok_inv in Hob, Hrt.
  destruct Hob as (Hok0 & Hids0). destruct Hrt as (Hok1 & Hids1).
  split; [eauto|]. split; [unfold is_round_trip; now rewrite Hn|].
  split; [|now exists ol, rl].
  pose proof Hol as Hol'. pose proof Hrl as Hrl'.
  apply leg_at_inv in Hol', Hrl'.
  destruct Hol' as (ids & lid0 & Hids & Hl0 & Hleg0).
  destruct Hrl' as (ids' & lid1 & Hids' & Hl1 & Hleg1).
  assert (ids' = ids) by congruence. subst ids'.
  now exists ids, lid0, lid1, ol, rl.
Qed.

(** X6. Segment order.  In every record of the output, the segments of
    the outbound and of the return leg carry, in order, the identifiers
    of [segment_ids] of the leg records that the first and the second leg
    id resolve to. *)
Theorem segments_keep_order (data : value) (w : ambient)
  (flights : list NormalizedItinerary) :
  parse data w = Ok flights ->
  exists t itins,
    build_tables data w = Ok t /\ itineraries_of data = Ok itins /\
    Forall2
      (fun itin f =>
         exists leg0 leg1,
           leg_at t itin 0 w = Ok leg0 /\ leg_at t itin 1 w = Ok leg1 /\
           segment_ids_of leg0 = Ok (map segment_id (segments (outbound f))) /\
           segment_ids_of leg1 = Ok (map segment_id (segments (return_ f))))
      (filter is_round_trip itins) flights.
Proof.
  intros H. apply parse_flights_inv in H.
  destruct H as (t & itins & Ht & Hi & Hrun).
  exists t, itins. split; [exact Ht|]. split; [exact Hi|].
  apply parse_loop_inv in Hrun. destruct Hrun as (_ & fs & -> & Hfs).
  simpl. revert Hfs. apply Forall2_impl. intros itin f Hn.
  now apply normalize_some_inv in Hn.
Qed.

(** X7. An itinerary yields a record exactly when its first price can be
    read, it has two leg ids, and it is resolvable: both legs, their
    places, their segments and the carriers and places of these are found
    in the tables, with the fields that are copied and timestamps that
    [fromisoformat] reads. *)
Theorem record_iff_resolvable (t : tables) (itin : value) (w : ambient) :
  (exists f, normalize t itin w = Ok (Some f)) <->
  (exists price, first_price itin = Ok price) /\
  is_round_trip itin = true /\
  resolvable fromisoformat t itin.
Proof.
  split.
  - intros (f & Hf). apply normalize_some_inv in Hf. tauto.
  - intros ((price & Hp) & Hrt & Hres).
    exact (normalize_total fromisoformat t itin w price Hp Hrt Hres).
Qed.

End MoreNormalization.

(** ** Presentation, further *)

Lemma strftime_clock12 d : strftime d "%I:%M %p" = clock12 d.
Proof.
  unfold clock12.
  change (strftime d "%I:%M %p") with
    (zfill 2 (nat_to_string (hour12 (hour d))) +++ ":"
     +++ zfill 2 (nat_to_string (minute d)) +++ " " +++ am_pm (hour d) +++ "").
  now rewrite append_nil_r.
Qed.

Lemma float_of_small_int z :
  Z.abs z < 2 ^ 53 -> float_of_int z = Ok (inject_Z z).
Proof.
  intros Hz. unfold float_of_int.
  assert (Hbits : (Z.log2 (Z.abs z) + 1 <=? 53) = true).
  { apply Z.leb_le. destruct (Z.eq_dec (Z.abs z) 0) as [H0|H0].
    - rewrite H0. simpl. lia.
    - assert (Z.log2 (Z.abs z) < 53); [|lia].
      apply Z.log2_lt_pow2; lia. }
  now rewrite Hbits.
Qed.

Lemma round_half_even_integer m : round_half_even (inject_Z m) = m.
Proof.
  unfold round_half_even. rewrite Qfloor_Z.
  assert (H : Qcompare (inject_Z m - inject_Z m) (1 # 2) = Lt).
  { apply (proj1 (Qlt_alt (inject_Z m - inject_Z m) (1 # 2))).
    remember (inject_Z m) as x eqn:Hx. clear Hx. lra. }
  now rewrite H.
Qed.

Lemma fixed2_integer z :
  fixed2 (inject_Z z) =
  (if z <? 0 then "-" else "") +++ Z_to_string (Z.abs z) +++ ".00".
Proof.
  unfold fixed2.
  change (Qabs (inject_Z z) * 100)%Q with
    (Qmake (Z.abs z * 100) 1).
  change (Qmake (Z.abs z * 100) 1) with (inject_Z (Z.abs z * 100)).
  rewrite round_half_even_integer.
  rewrite Z.div_mul by lia. rewrite Z.mod_mul by lia.
  assert (Hsign : Qlt_bool (inject_Z z) 0 = (z <? 0)).
  { unfold Qlt_bool, Qle_bool. simpl. rewrite Z.mul_1_r.
    destruct (0 <=? z) eqn:H1; destruct (z <? 0) eqn:H2; try reflexivity;
      [apply Z.leb_le in H1; apply Z.ltb_lt in H2
      |apply Z.leb_gt in H1; apply Z.ltb_ge in H2]; lia. }
  rewrite Hsign. reflexivity.
Qed.

Section MorePresentation.

Variable py_str : value -> string.

Lemma format_flight_outcome flight w :
  format_flight_for_humans py_str flight w =
  match to_float (price_usd flight) with
  | Ok q =>
      Ok (String.concat (newline +++ newline)
            [ "Price: $" +++ fixed2 q;
              humans_format_leg py_str (outbound flight) "Outbound";
              humans_format_leg py_str (return_ flight) "Return" ])
  | Err e => Err e
  end.
Proof.
  unfold format_flight_for_humans, format_2f, bind, lift, ret.
  now destruct (to_float (price_usd flight)).
Qed.

(** X8. [format_flight_for_humans] raises exactly when the price cannot
    be put in float notation, with the exception of that conversion:
    [ValueError] for a price that is a string, [TypeError] for [None]. *)
Theorem format_fails_iff_price_fails (flight : NormalizedItinerary)
  (w : ambient) (e : exn) :
  (format_flight_for_humans py_str flight w = Err e <->
   to_float (price_usd flight) = Err e) /\
  (forall s, price_usd flight = VStr s ->
             format_flight_for_humans py_str flight w = Err ValueError) /\
  (price_usd flight = VNone ->
   format_flight_for_humans py_str flight w = Err TypeError).
Proof.
  rewrite format_flight_outcome. split; [|split].
  - destruct (to_float (price_usd flight)); split; congruence.
  - intros s ->. reflexivity.
  - intros ->. reflexivity.
Qed.

(** X9. [format_flights] returns the texts of its records one for one and
    in order, and only if every record can be formatted; the first record
    whose price cannot be formatted makes the whole call raise. *)
Theorem format_flights_each (flights : list NormalizedItinerary)
  (w : ambient) :
  (forall out,
     format_flights py_str flights w = Ok out <->
     Forall2 (fun f s => format_flight_for_humans py_str f w = Ok s)
       flights out) /\
  (forall pre f post e,
     flights = pre ++ f :: post ->
     Forall (fun f' => exists q, to_float (price_usd f') = Ok q) pre ->
     to_float (price_usd f) = Err e ->
     format_flights py_str flights w = Err e).
Proof.
  split.
  - intros out. unfold format_flights. split.
    + intros H. apply for_each_collect_inv in H.
      destruct H as (ys & -> & Hys). exact Hys.
    + intros H. exact (for_each_collect_run _ w _ _ H []).
  - intros pre f post e -> Hpre He. unfold format_flights.
    apply for_each_collect_err.
    + revert Hpre. apply Forall_impl. intros f' (q & Hq).
      eexists. rewrite format_flight_outcome, Hq. reflexivity.
    + rewrite format_flight_outcome. now rewrite He.
Qed.

(** X10. A price that is an integer below 2^53 in absolute value is shown
    exactly, with [.00] after it. *)
Theorem integer_price_shown_exactly (flight : NormalizedItinerary)
  (z : Z) (w : ambient) :
  price_usd flight = VInt z ->
  Z.abs z < 2 ^ 53 ->
  exists rest,
    format_flight_for_humans py_str flight w =
    Ok ("Price: $" +++ (if z <? 0 then "-" else "")
        +++ Z_to_string (Z.abs z) +++ ".00" +++ newline +++ newline +++ rest).
Proof.
  intros Hprice Hz. rewrite format_flight_outcome, Hprice. simpl.
  rewrite (float_of_small_int z Hz). rewrite fixed2_integer.
  eexists. f_equal. cbn [String.concat].
  rewrite !append_assoc. reflexivity.
Qed.

End MorePresentation.

(** X11. The 12-hour reading loses nothing: for an hour of the day below
    24, the hour shown by [%I] and the suffix shown by [%p] give the hour
    back. *)
Theorem twelve_hour_reading_decodes (d : datetime) :
  (hour d < 24)%nat ->
  strftime d "%I:%M %p" =
    zfill 2 (nat_to_string (hour12 (hour d))) +++ ":"
    +++ zfill 2 (nat_to_string (minute d)) +++ " " +++ am_pm (hour d) /\
  hour24_of (hour12 (hour d)) (am_pm (hour d)) = hour d.
Proof.
  intros Hh. split; [apply strftime_clock12|].
  destruct d as [y mo dy h mi s us tz]. simpl in *.
  do 24 (destruct h as [|h]; [reflexivity|]). lia.
Qed.

(** ** Selection, further *)

Section MoreSelection.

Context {A : Type} (key : A -> value) (w : ambient).

Lemma min_scan_member rest :
  forall best r, min_scan key rest best w = Ok r -> In r (best :: rest).
Proof.
  induction rest as [|x rest IH]; intros best r H; simpl in H.
  - apply ret_inv in H. now left.
  - apply bind_inv in H. destruct H as (smaller & _ & H).
    apply IH in H. destruct smaller; simpl in *; tauto.
Qed.

Lemma py_lt_non_number a b :
  as_number a = None \/ as_number b = None ->
  is_number a = true \/ is_number b = true ->
  py_lt a b = Err TypeError.
Proof.
  unfold is_number.
  destruct a; destruct b; simpl; intros [Ha|Hb] [Ha'|Hb'];
    try discriminate; reflexivity.
Qed.

Lemma min_scan_numbers pre :
  forall best,
    is_number (key best) = true ->
    Forall (fun x => is_number (key x) = true) pre ->
    forall rest,
      exists best',
        is_number (key best') = true /\
        min_scan key (pre ++ rest) best w = min_scan key rest best' w.
Proof.
  induction pre as [|x pre IH]; intros best Hbest Hpre rest.
  - now exists best.
  - inversion Hpre as [|? ? Hx Hrest]; subst.
    destruct (is_number_value _ Hx) as (q & Hq).
    destruct (is_number_value _ Hbest) as (p & Hp).
    simpl. rewrite (bind_ok _ _ _ (Qlt_bool q p));
      [|exact (py_lt_numbers _ _ _ _ Hq Hp)].
    apply IH; [|exact Hrest]. now destruct (Qlt_bool q p).
Qed.

End MoreSelection.

(** X12. Whatever the prices are, [get_cheapest_flight] returns [None]
    only for the empty sequence, and otherwise, when it returns, one of
    the records it was given. *)
Theorem get_cheapest_flight_member {A : Type} {PA : Priced A}
  (flights : list A) (w : ambient) (r : option A) :
  get_cheapest_flight flights w = Ok r ->
  match r with
  | None => flights = []
  | Some best => In best flights
  end.
Proof.
  destruct flights as [|x rest]; simpl.
  - intros H. apply ret_inv in H. now subst r.
  - intros H. apply bind_inv in H. destruct H as (best & Hbest & H).
    apply ret_inv in H. subst r.
    exact (min_scan_member price_of w rest x best Hbest).
Qed.

(** X13. A price that is not a number (a string, [None]) next to prices
    that are numbers makes [get_cheapest_flight] raise [TypeError]: when
    it follows one or more numbers, and when it comes first and a number
    follows. *)
Theorem get_cheapest_flight_mixed_prices {A : Type} {PA : Priced A}
  (pre post : list A) (x y : A) (w : ambient) :
  as_number (price_of x) = None ->
  (pre <> [] ->
   Forall (fun f => is_number (price_of f) = true) pre ->
   get_cheapest_flight (pre ++ x :: post) w = Err TypeError) /\
  (is_number (price_of y) = true ->
   get_cheapest_flight (x :: y :: post) w = Err TypeError).
Proof.
  intros Hx. split.
  - intros Hne Hpre. destruct pre as [|b pre]; [congruence|].
    inversion Hpre as [|? ? Hb Hrest]; subst.
    simpl. apply bind_err. unfold py_min.
    destruct (min_scan_numbers price_of w pre b Hb Hrest (x :: post))
      as (best & Hbest & ->).
    simpl. apply bind_err. unfold lift.
    apply py_lt_non_number; auto.
  - intros Hy. simpl. apply bind_err. apply bind_err. unfold lift.
    apply py_lt_non_number; auto.
Qed.

(** *** Prices that are strings *)

Lemma ascii_compare_lt_trans a b c :
  Ascii.compare a b = Lt -> Ascii.compare b c = Lt -> Ascii.compare a c = Lt.
Proof.
  unfold Ascii.compare. rewrite !N.compare_lt_iff. apply N.lt_trans.
Qed.

Lemma string_compare_lt_trans s1 :
  forall s2 s3,
    String.compare s1 s2 = Lt -> String.compare s2 s3 = Lt ->
    String.compare s1 s3 = Lt.
Proof.
  induction s1 as [|a s1 IH]; intros [|b s2] [|c s3]; simpl;
    try discriminate; try reflexivity.
  destruct (Ascii.compare a b) eqn:Hab; try discriminate;
    destruct (Ascii.compare b c) eqn:Hbc; try discriminate; intros H1 H2.
  - apply Ascii.compare_eq_iff in Hab, Hbc. subst.
    assert (Hcc : Ascii.compare c c = Eq).
    { pose proof (Ascii.compare_antisym c c) as H.
      destruct (Ascii.compare c c); try reflexivity; discriminate H. }
    rewrite Hcc. eauto.
  - apply Ascii.compare_eq_iff in Hab. subst. now rewrite Hbc.
  - apply Ascii.compare_eq_iff in Hbc. subst. now rewrite Hab.
  - now rewrite (ascii_compare_lt_trans _ _ _ Hab Hbc).
Qed.

Lemma string_ltb_irrefl s : String.ltb s s = false.
Proof.
  unfold String.ltb. pose proof (String.compare_antisym s s) as H.
  destruct (String.compare s s); try reflexivity; discriminate H.
Qed.

Lemma string_ltb_asym r s : String.ltb r s = true -> String.ltb s r = false.
Proof.
  unfold String.ltb. rewrite (String.compare_antisym s r).
  now destruct (String.compare r s).
Qed.

(** [x < s] and [s <= r] give [x < r]. *)
Lemma string_ltb_le_trans x s r :
  String.ltb x s = true -> String.ltb r s = false -> String.ltb x r = true.
Proof.
  unfold String.ltb. intros Hxs Hrs.
  destruct (String.compare x s) eqn:Hc; try discriminate Hxs.
  destruct (String.compare r s) eqn:Hc'; try discriminate Hrs.
  - apply String.compare_eq_iff in Hc'. subst r. now rewrite Hc.
  - assert (Hsr : String.compare s r = Lt)
      by (rewrite String.compare_antisym, Hc'; reflexivity).
    now rewrite (string_compare_lt_trans _ _ _ Hc Hsr).
Qed.

Section TextSelection.

Context {A : Type} (key : A -> value) (w : ambient).

Lemma text_order_snoc_keep xs i best x s r :
  first_in_text_order key xs i best ->
  key best = VStr s -> key x = VStr r -> String.ltb r s = false ->
  first_in_text_order key (xs ++ [x]) i best.
Proof.
  intros (Hi & s' & Hs' & Hmin) Hs Hr Hle.
  assert (Hlt : (i < List.length xs)%nat)
    by (apply nth_error_Some; congruence).
  split; [now rewrite nth_error_app1|].
  exists s'. split; [exact Hs'|]. intros j y u Hj Hu.
  destruct (Nat.lt_ge_cases j (List.length xs)) as [Hj'|Hj'].
  - rewrite nth_error_app1 in Hj by exact Hj'. eauto.
  - rewrite nth_error_app2 in Hj by exact Hj'.
    destruct (j - List.length xs)%nat as [|n] eqn:Hd;
      [|destruct n; discriminate Hj].
    injection Hj as <-. assert (s' = s) by congruence.
    assert (u = r) by congruence. subst. split; [exact Hle | lia].
Qed.

Lemma text_order_snoc_replace xs i best x s r :
  first_in_text_order key xs i best ->
  key best = VStr s -> key x = VStr r -> String.ltb r s = true ->
  first_in_text_order key (xs ++ [x]) (List.length xs) x.
Proof.
  intros (Hi & s' & Hs' & Hmin) Hs Hr Hlt.
  assert (s' = s) by congruence. subst s'.
  split; [rewrite nth_error_app2, Nat.sub_diag by lia; reflexivity|].
  exists r. split; [exact Hr|]. intros j y u Hj Hu.
  destruct (Nat.lt_ge_cases j (List.length xs)) as [Hj'|Hj'].
  - rewrite nth_error_app1 in Hj by exact Hj'.
    destruct (Hmin _ _ _ Hj Hu) as (Hle & _).
    pose proof (string_ltb_le_trans _ _ _ Hlt Hle) as Hru.
    split; [now apply string_ltb_asym | auto].
  - rewrite nth_error_app2 in Hj by exact Hj'.
    destruct (j - List.length xs)%nat as [|n] eqn:Hd;
      [|destruct n; discriminate Hj].
    injection Hj as <-. assert (u = r) by congruence. subst u.
    split; [apply string_ltb_irrefl | lia].
Qed.

Lemma min_scan_text_order rest :
  forall seen i best,
    first_in_text_order key seen i best ->
    Forall (fun x => exists s, key x = VStr s) rest ->
    exists i' best',
      min_scan key rest best w = Ok best' /\
      first_in_text_order key (seen ++ rest) i' best'.
Proof.
  induction rest as [|x rest IH]; intros seen i best Hbest Htext.
  - exists i, best. now rewrite app_nil_r.
  - inversion Htext as [|? ? (r & Hr) Hrest]; subst.
    pose proof Hbest as (_ & s & Hs & _).
    simpl. rewrite (bind_ok _ _ _ (String.ltb r s));
      [|unfold lift; now rewrite Hr, Hs].
    replace (seen ++ x :: rest) with ((seen ++ [x]) ++ rest)
      by (rewrite <- app_assoc; reflexivity).
    destruct (String.ltb r s) eqn:Hlt.
    + apply (IH _ (List.length seen)); [|exact Hrest].
      exact (text_order_snoc_replace _ _ _ _ _ _ Hbest Hs Hr Hlt).
    + apply (IH _ i); [|exact Hrest].
      exact (text_order_snoc_keep _ _ _ _ _ _ Hbest Hs Hr Hlt).
Qed.

End TextSelection.

(** X14. When the prices are strings, as an amount quoted in the payload
    is, [get_cheapest_flight] compares them as text: it returns the first
    record whose price is least in the order of strings, character by
    character, which is not the order of the amounts. *)
Theorem get_cheapest_flight_text_prices {A : Type} {PA : Priced A}
  (flights : list A) (w : ambient) :
  flights <> [] ->
  Forall (fun x => exists s, price_of x = VStr s) flights ->
  exists i best,
    get_cheapest_flight flights w = Ok (Some best) /\
    first_in_text_order price_of flights i best.
Proof.
  intros Hne Htext. destruct flights as [|x rest]; [congruence|].
  inversion Htext as [|? ? (s & Hs) Hrest]; subst.
  assert (Hfirst : first_in_text_order price_of [x] 0 x).
  { split; [reflexivity|]. exists s. split; [exact Hs|].
    intros [|[|j]] y r Hj Hr; try discriminate Hj.
    injection Hj as <-. assert (r = s) by congruence. subst r.
    split; [apply string_ltb_irrefl | lia]. }
  destruct (min_scan_text_order price_of w rest [x] 0%nat x Hfirst Hrest)
    as (i & best & Hscan & Hmin).
  exists i, best. split; [|exact Hmin].
  unfold get_cheapest_flight, py_min. now rewrite (bind_ok _ _ _ best Hscan).
Qed.

(** ** Compression, further *)

Lemma min_scan_map {A B} (g : A -> B) (keyA : A -> value) (keyB : B -> value)
  (w : ambient) :
  (forall x, keyB (g x) = keyA x) ->
  forall rest best,
    min_scan keyB (map g rest) (g best) w =
    match min_scan keyA rest best w with
    | Ok r => Ok (g r)
    | Err e => Err e
    end.
Proof.
  intros Hkey. induction rest as [|x rest IH]; intros best; simpl.
  - reflexivity.
  - unfold bind, lift. rewrite !Hkey.
    destruct (py_lt (keyA x) (keyA best)) as [smaller|e]; [|reflexivity].
    destruct smaller; apply IH.
Qed.

Section MoreCompression.

Variable py_str : value -> string.

Lemma simplify_run (flights : list NormalizedItinerary) N w :
  simplify_parsed_flights py_str flights N w
  = Ok (map (simplify_one py_str) (slice_to flights N)).
Proof.
  unfold simplify_parsed_flights.
  apply (for_each_append_map (simplify_one py_str)).
Qed.

Lemma slice_to_firstn {X} (xs : list X) N :
  slice_to xs N = firstn (slice_length (List.length xs) N) xs /\
  (slice_length (List.length xs) N <= List.length xs)%nat.
Proof.
  unfold slice_to, slice_length. destruct (N <? 0) eqn:HN.
  - apply Z.ltb_lt in HN. split; [reflexivity | lia].
  - split; [|apply Nat.le_min_r].
    destruct (Nat.le_ge_cases (Z.to_nat N) (List.length xs)) as [H|H].
    + now rewrite Nat.min_l.
    + rewrite Nat.min_r by exact H. now rewrite !firstn_all2.
Qed.

(** X15. For any count, negative ones included, [simplify_parsed_flights]
    returns and never raises; the result is the compression, in order, of
    the leading records of the input: the first [min N len] for [N >= 0],
    all but the last [-N] for [N < 0]. *)
Theorem simplify_parsed_flights_any_count (flights : list NormalizedItinerary)
  (N : Z) (w : ambient) :
  exists out,
    simplify_parsed_flights py_str flights N w = Ok out /\
    out = map (simplify_one py_str) (firstn (List.length out) flights) /\
    (List.length out <= List.length flights)%nat /\
    (0 <= N -> Z.of_nat (List.length out)
               = Z.min N (Z.of_nat (List.length flights))) /\
    (N < 0 -> Z.of_nat (List.length out)
              = Z.max 0 (Z.of_nat (List.length flights) + N)).
Proof.
  exists (map (simplify_one py_str) (slice_to flights N)).
  destruct (slice_to_firstn flights N) as (Hslice & Hle).
  assert (Hlen : List.length (map (simplify_one py_str) (slice_to flights N))
                 = slice_length (List.length flights) N).
  { rewrite length_map, Hslice, length_firstn. lia. }
  split; [apply simplify_run|].
  rewrite Hlen. split; [now rewrite <- Hslice|]. split; [exact Hle|].
  unfold slice_length. split; intros HN.
  - destruct (N <? 0) eqn:H; [apply Z.ltb_lt in H; lia | lia].
  - apply Z.ltb_lt in HN. rewrite HN. lia.
Qed.

(** X16. The cheapest of the compressed records is the compression of
    the cheapest among the records that were kept: a record beyond the
    count is never the one found, whatever its price. *)
Theorem cheapest_of_simplified (flights : list NormalizedItinerary)
  (N : Z) (w : ambient) :
  exists out,
    simplify_parsed_flights py_str flights N w = Ok out /\
    get_cheapest_flight out w =
    match get_cheapest_flight (slice_to flights N) w with
    | Ok r => Ok (option_map (simplify_one py_str) r)
    | Err e => Err e
    end.
Proof.
  exists (map (simplify_one py_str) (slice_to flights N)).
  split; [apply simplify_run|].
  destruct (slice_to flights N) as [|f kept]; [reflexivity|].
  simpl. unfold bind, ret.
  rewrite (min_scan_map (simplify_one py_str) price_of price_of w
             (fun _ => eq_refl) kept f).
  now destruct (min_scan price_of kept f w).
Qed.

End MoreCompression.

(** ** Normalisation and compression together *)

Section Pipeline.

Variable fromisoformat : string -> option datetime.
Variable py_str : value -> string.

Local Notation normalize := (normalize_itinerary fromisoformat).
Local Notation parse := (parse_flights fromisoformat).

(** X17. Compression drops [is_direct], but for the records that
    [parse_flights] makes it can be read off the compressed form: a leg is
    direct exactly when its compressed leg has one segment string. *)
Theorem directness_survives_compression (data : value) (w : ambient)
  (flights : list NormalizedItinerary) :
  parse data w = Ok flights ->
  Forall
    (fun f =>
       (is_direct (outbound f) = true <->
        List.length (segment_codes (c_outbound (simplify_one py_str f)))
        = 1%nat) /\
       (is_direct (return_ f) = true <->
        List.length (segment_codes (c_return (simplify_one py_str f)))
        = 1%nat))
    flights.
Proof.
  intros H. apply parse_flights_inv in H.
  destruct H as (t & itins & _ & _ & Hrun).
  apply parse_loop_inv in Hrun. destruct Hrun as (_ & fs & -> & Hfs).
  simpl. revert Hfs. apply Forall2_right. intros itin f Hn.
  apply normalize_inv in Hn. destruct Hn as (price & n & _ & _ & Hr).
  destruct (n =? 2); [|discriminate Hr].
  destruct Hr as (ol & rl & ob & rt & _ & _ & Hob & Hrt & Hf).
  injection Hf as ->. simpl. rewrite !length_map.
  apply format_leg_direct in Hob, Hrt.
  rewrite Hob, Hrt. split; apply Nat.eqb_eq.
Qed.

Lemma parse_loop_acc t w itins :
  forall acc,
    for_each itins
      (fun itin flights =>
         r <- normalize t itin ;; ret (append_flight flights r)) acc w
    = match for_each itins
              (fun itin flights =>
                 r <- normalize t itin ;; ret (append_flight flights r)) [] w with
      | Ok fs => Ok (acc ++ fs)
      | Err e => Err e
      end.
Proof.
  induction itins as [|itin itins IH]; intros acc; simpl.
  - unfold ret. now rewrite app_nil_r.
  - destruct (normalize t itin w) as [r|e] eqn:Hn.
    + assert (Hb : forall acc',
                 (r0 <- normalize t itin ;; ret (append_flight acc' r0)) w
                 = Ok (append_flight acc' r))
        by (intros acc'; now rewrite (bind_ok _ _ _ r Hn)).
      rewrite (bind_ok _ _ _ _ (Hb acc)), (bind_ok _ _ _ _ (Hb [])).
      rewrite (IH (append_flight acc r)), (IH (append_flight [] r)).
      destruct (for_each itins _ [] w) as [fs|e]; [|reflexivity].
      f_equal. destruct r; simpl; [now rewrite <- app_assoc | reflexivity].
    + assert (Hb : forall acc',
                 (r0 <- normalize t itin ;; ret (append_flight acc' r0)) w
                 = Err e)
        by (intros acc'; now apply bind_err).
      now rewrite (bind_err _ _ _ _ (Hb acc)), (bind_err _ _ _ _ (Hb [])).
Qed.

Lemma parse_flights_outcome data w :
  parse data w =
  match build_tables data w with
  | Ok t =>
      match itineraries_of data with
      | Ok itins =>
          for_each itins
            (fun itin flights =>
               r <- normalize t itin ;; ret (append_flight flights r)) [] w
      | Err e => Err e
      end
  | Err e => Err e
  end.
Proof.
  unfold parse_flights, bind, lift.
  destruct (build_tables data w); [|reflexivity].
  now destruct (itineraries_of data).
Qed.

(** X18. Itineraries are normalised one by one: the outcome for a batch
    is the outcome for its first part followed by the outcome for the
    rest, the first exception being the one raised. *)
Theorem parse_flights_concatenates (d d1 d2 : list (string * value))
  (l1 l2 : list value) (w : ambient) :
  (forall key, In key ["legs"; "places"; "carriers"; "segments"] ->
               assoc key d1 = assoc key d /\ assoc key d2 = assoc key d) ->
  assoc "itineraries" d = Some (VList (l1 ++ l2)) ->
  assoc "itineraries" d1 = Some (VList l1) ->
  assoc "itineraries" d2 = Some (VList l2) ->
  parse (VDict d) w =
  match parse (VDict d1) w with
  | Ok f1 =>
      match parse (VDict d2) w with
      | Ok f2 => Ok (f1 ++ f2)
      | Err e => Err e
      end
  | Err e => Err e
  end.
Proof.
  intros Hagree Hd Hd1 Hd2.
  assert (Hget : forall d' key,
             assoc key d' = assoc key d ->
             dict_get (VDict d') key (VList []) = dict_get (VDict d) key (VList []))
    by (intros d' key Hk; simpl; now rewrite Hk).
  assert (Ht : forall d',
             (forall key, In key ["legs"; "places"; "carriers"; "segments"] ->
                          assoc key d' = assoc key d) ->
             build_tables (VDict d') w = build_tables (VDict d) w).
  { intros d' Hd'. unfold build_tables, lookup_of, bind, lift.
    rewrite (Hget d' "legs"), (Hget d' "places"), (Hget d' "carriers"),
      (Hget d' "segments"); try reflexivity; apply Hd'; simpl; tauto. }
  rewrite !parse_flights_outcome.
  rewrite (Ht d1 (fun key Hin => proj1 (Hagree key Hin))).
  rewrite (Ht d2 (fun key Hin => proj2 (Hagree key Hin))).
  destruct (build_tables (VDict d) w) as [t|e]; [|reflexivity].
  unfold itineraries_of. simpl. rewrite Hd, Hd1, Hd2. simpl.
  rewrite for_each_app.
  destruct (for_each l1 _ [] w) as [f1|e]; [|reflexivity].
  apply parse_loop_acc.
Qed.

End Pipeline.

(** ** What the renderings leave out *)

Lemma strftime_same_minute d1 d2 fmt :
  same_minute d1 d2 -> In fmt formats_used ->
  strftime d1 fmt = strftime d2 fmt.
Proof.
  destruct d1 as [y1 mo1 dy1 h1 mi1 s1 us1 tz1].
  destruct d2 as [y2 mo2 dy2 h2 mi2 s2 us2 tz2].
  unfold same_minute. simpl. intros (-> & -> & -> & -> & ->).
  unfold formats_used. simpl.
  intros [<-|[<-|[<-|[<-|[]]]]]; reflexivity.
Qed.

(** X19. No text that the code renders shows seconds, microseconds or
    the UTC offset: two instants that agree down to the minute are
    rendered alike by each of the four formats in use, and a leg gives the
    same compressed leg and the same block of text when its departure and
    arrival are replaced by such instants. *)
Theorem renderings_stop_at_the_minute (py_str : value -> string)
  (leg : NormalizedLeg) (dep arr : datetime) :
  same_minute dep (departure_time leg) ->
  same_minute arr (arrival_time leg) ->
  (forall fmt, In fmt formats_used ->
               strftime dep fmt = strftime (departure_time leg) fmt) /\
  simplify_format_leg py_str (with_times leg dep arr)
  = simplify_format_leg py_str leg /\
  (forall name,
     humans_format_leg py_str (with_times leg dep arr) name
     = humans_format_leg py_str leg name).
Proof.
  intros Hdep Harr.
  split; [intros fmt Hfmt; now apply strftime_same_minute|].
  split.
  - unfold simplify_format_leg, with_times.
    cbn [origin destination departure_time arrival_time duration segments
         is_direct].
    rewrite (strftime_same_minute dep _ "%Y-%m-%d %H:%M" Hdep)
      by (unfold formats_used; simpl; tauto).
    now rewrite (strftime_same_minute arr _ "%Y-%m-%d %H:%M" Harr)
      by (unfold formats_used; simpl; tauto).
  - intros name. unfold humans_format_leg, humans_leg_lines, with_times.
    cbn [origin destination departure_time arrival_time duration segments
         is_direct].
    rewrite (strftime_same_minute dep _ "%Y-%m-%d %I:%M %p" Hdep)
      by (unfold formats_used; simpl; tauto).
    now rewrite (strftime_same_minute arr _ "%Y-%m-%d %I:%M %p" Harr)
      by (unfold formats_used; simpl; tauto).
Qed.

(** * The further properties at work *)

Lemma build_lookup_last_binding_witness :
  table_getitem
    (match build_lookup (VList duplicate_places) sample_ambient with
     | Ok t => t
     | Err _ => []
     end) (VStr "p1")
  = Ok (sample_place "p1" "NYC").
Proof.
  destruct (build_lookup (VList duplicate_places) sample_ambient) as [t|e] eqn:Hb;
    [|discriminate Hb].
  destruct (build_lookup_last_binding _ _ _ Hb) as (items & Hitems & Hfind).
  injection Hitems as <-. rewrite (Hfind (VStr "p1") eq_refl). reflexivity.
Defined.

Lemma item_without_id_raises_witness :
  build_lookup (VList legs_with_anonymous) sample_ambient
  = Err (KeyError (VStr "id")) /\
  parse_flights fromisoformat_seconds
    (VDict [("legs", VList legs_with_anonymous)]) sample_ambient
  = Err (KeyError (VStr "id")).
Proof.
  destruct (item_without_id_raises fromisoformat_seconds
              [("legs", VList legs_with_anonymous)] sample_ambient
              [sample_place "l1" "x"] [sample_place "l2" "y"]
              [("origin_place_id", VStr "p1")]) as (Hb & Hp).
  - repeat constructor. eexists. split; reflexivity.
  - reflexivity.
  - split; [exact Hb | exact (Hp eq_refl)].
Defined.

Lemma parse_flights_reads_five_keys_witness :
  parse_flights fromisoformat_seconds
    (VDict (("agents", VList [VInt 1]) :: sample_entries two_round_trips
            ++ [("status", VStr "complete")])) sample_ambient
  = parse_flights fromisoformat_seconds
      (VDict (sample_entries two_round_trips)) sample_ambient.
Proof.
  apply parse_flights_reads_five_keys.
  intros key Hin. unfold top_level_keys in Hin. simpl in Hin.
  destruct Hin as [<-|[<-|[<-|[<-|[<-|[]]]]]]; reflexivity.
Defined.

Lemma parse_flights_not_an_object_witness :
  parse_flights fromisoformat_seconds (VList two_round_trips) sample_ambient
  = Err AttributeError.
Proof.
  apply parse_flights_not_an_object. intros d H. discriminate H.
Defined.

Lemma parse_flights_needs_price_and_legs_witness :
  exists itins,
    itineraries_of (sample_payload mixed_itineraries) = Ok itins /\
    Forall (fun itin => (exists price, first_price itin = Ok price) /\
                        (exists n, leg_count itin = Ok n)) itins.
Proof.
  apply (parse_flights_needs_price_and_legs fromisoformat_seconds
           (sample_payload mixed_itineraries) sample_ambient sample_flights).
  vm_compute. reflexivity.
Defined.

Lemma segments_keep_order_witness :
  exists t itins,
    build_tables (sample_payload two_round_trips) sample_ambient = Ok t /\
    itineraries_of (sample_payload two_round_trips) = Ok itins /\
    Forall2
      (fun itin f =>
         exists leg0 leg1,
           leg_at t itin 0 sample_ambient = Ok leg0 /\
           leg_at t itin 1 sample_ambient = Ok leg1 /\
           segment_ids_of leg0 = Ok (map segment_id (segments (outbound f))) /\
           segment_ids_of leg1 = Ok (map segment_id (segments (return_ f))))
      (filter is_round_trip itins) sample_flights.
Proof.
  apply (segments_keep_order fromisoformat_seconds
           (sample_payload two_round_trips) sample_ambient sample_flights).
  vm_compute. reflexivity.
Defined.

(** The return leg of the first round trip goes through [s2] then [s3]. *)
Example sample_segment_order :
  option_map (fun f => map segment_id (segments (return_ f)))
    (nth_error sample_flights 0)
  = Some [VStr "s2"; VStr "s3"].
Proof. reflexivity. Qed.

Lemma format_fails_iff_price_fails_witness :
  format_flight_for_humans str_simple (flight_priced (VStr "387.20"))
    sample_ambient = Err ValueError /\
  format_flight_for_humans str_simple (flight_priced VNone) sample_ambient
  = Err TypeError.
Proof.
  split.
  - destruct (format_fails_iff_price_fails str_simple
                (flight_priced (VStr "387.20")) sample_ambient ValueError)
      as (_ & Hstr & _).
    exact (Hstr "387.20" eq_refl).
  - destruct (format_fails_iff_price_fails str_simple
                (flight_priced VNone) sample_ambient TypeError)
      as (_ & _ & Hnone).
    exact (Hnone eq_refl).
Defined.

Lemma format_flights_each_witness :
  format_flights str_simple
    (sample_flights ++ flight_priced (VStr "387.20") :: sample_flights)
    sample_ambient = Err ValueError.
Proof.
  destruct (format_flights_each str_simple
              (sample_flights ++ flight_priced (VStr "387.20") :: sample_flights)
              sample_ambient) as (_ & Hfail).
  apply (Hfail sample_flights (flight_priced (VStr "387.20")) sample_flights);
    [reflexivity | | reflexivity].
  repeat constructor; eexists; reflexivity.
Defined.

Lemma integer_price_shown_exactly_witness :
  exists rest,
    format_flight_for_humans str_simple (flight_priced (VInt (-1250)))
      sample_ambient
    = Ok ("Price: $-1250.00" +++ newline +++ newline +++ rest).
Proof.
  destruct (integer_price_shown_exactly str_simple
              (flight_priced (VInt (-1250))) (-1250) sample_ambient eq_refl)
    as (rest & Hrest).
  - reflexivity.
  - exists rest. rewrite Hrest. reflexivity.
Defined.

Lemma twelve_hour_reading_decodes_witness :
  strftime (mk_datetime 2025 3 10 0 40 0 0 None) "%I:%M %p" = "12:40 AM" /\
  hour24_of 12 "AM" = 0%nat.
Proof.
  destruct (twelve_hour_reading_decodes (mk_datetime 2025 3 10 0 40 0 0 None))
    as (Htext & Hback).
  - simpl. lia.
  - split; [rewrite Htext; reflexivity | exact Hback].
Defined.

Lemma get_cheapest_flight_member_witness : In sample_cheapest sample_flights.
Proof.
  apply (get_cheapest_flight_member sample_flights sample_ambient
           (Some sample_cheapest)).
  reflexivity.
Defined.

Lemma get_cheapest_flight_mixed_prices_witness :
  get_cheapest_flight
    (tied_prices ++ priced_text "387.20" "d" :: tied_prices) sample_ambient
  = Err TypeError /\
  get_cheapest_flight
    (priced_text "387.20" "d" :: priced (3872 # 10) "b" :: tied_prices)
    sample_ambient
  = Err TypeError.
Proof.
  destruct (get_cheapest_flight_mixed_prices tied_prices tied_prices
              (priced_text "387.20" "d") (priced (3872 # 10) "b")
              sample_ambient) as (Hafter & Hfirst); [reflexivity|].
  split.
  - apply Hafter; [discriminate | repeat constructor].
  - apply Hfirst. reflexivity.
Defined.

Lemma get_cheapest_flight_text_prices_witness :
  exists i best,
    get_cheapest_flight [priced_text "999.00" "a"; priced_text "1000.00" "b"]
      sample_ambient = Ok (Some best) /\
    first_in_text_order price_of
      [priced_text "999.00" "a"; priced_text "1000.00" "b"] i best.
Proof.
  apply (get_cheapest_flight_text_prices
           [priced_text "999.00" "a"; priced_text "1000.00" "b"] sample_ambient).
  - discriminate.
  - repeat constructor; eexists; reflexivity.
Defined.

(** As text, 1000.00 comes before 999.00. *)
Example quoted_amounts_compare_as_text :
  get_cheapest_flight [priced_text "999.00" "a"; priced_text "1000.00" "b"]
    sample_ambient = Ok (Some (priced_text "1000.00" "b")).
Proof. reflexivity. Qed.

Lemma simplify_parsed_flights_any_count_witness :
  exists out,
    simplify_parsed_flights str_simple sample_flights (-1) sample_ambient
    = Ok out /\
    Z.of_nat (List.length out) = 1.
Proof.
  destruct (simplify_parsed_flights_any_count str_simple sample_flights (-1)
              sample_ambient) as (out & Hrun & _ & _ & _ & Hneg).
  exists out. split; [exact Hrun|]. rewrite Hneg by lia. reflexivity.
Defined.

(** With a count of one, the cheapest record found is the first one, at
    412.50, although the second costs 387.20. *)
Example cheapest_of_simplified_misses_second :
  exists out c,
    simplify_parsed_flights str_simple sample_flights 1 sample_ambient = Ok out /\
    get_cheapest_flight out sample_ambient = Ok (Some c) /\
    c_price_usd c = VFloat (4125 # 10).
Proof. do 2 eexists. repeat split; reflexivity. Qed.

Lemma directness_survives_compression_witness :
  Forall
    (fun f =>
       (is_direct (outbound f) = true <->
        List.length (segment_codes (c_outbound (simplify_one str_simple f)))
        = 1%nat) /\
       (is_direct (return_ f) = true <->
        List.length (segment_codes (c_return (simplify_one str_simple f)))
        = 1%nat))
    sample_flights.
Proof.
  apply (directness_survives_compression fromisoformat_seconds str_simple
           (sample_payload two_round_trips) sample_ambient sample_flights).
  vm_compute. reflexivity.
Defined.

Lemma parse_flights_concatenates_witness :
  parse_flights fromisoformat_seconds
    (VDict (sample_entries (two_round_trips ++ mixed_itineraries)))
    sample_ambient
  = Ok (sample_flights ++ sample_flights).
Proof.
  rewrite (parse_flights_concatenates fromisoformat_seconds
             (sample_entries (two_round_trips ++ mixed_itineraries))
             (sample_entries two_round_trips)
             (sample_entries mixed_itineraries)
             two_round_trips mixed_itineraries sample_ambient).
  - vm_compute. reflexivity.
  - intros key Hin. simpl in Hin.
    destruct Hin as [<-|[<-|[<-|[<-|[]]]]]; split; reflexivity.
  - reflexivity.
  - reflexivity.
  - reflexivity.
Defined.

Lemma renderings_stop_at_the_minute_witness :
  simplify_format_leg str_simple
    (with_times (outbound sample_cheapest)
       (mk_datetime 2025 3 1 18 30 59 999 (Some 3600))
       (mk_datetime 2025 3 2 6 25 1 0 (Some (-18000))))
  = simplify_format_leg str_simple (outbound sample_cheapest).
Proof.
  destruct (renderings_stop_at_the_minute str_simple (outbound sample_cheapest)
              (mk_datetime 2025 3 1 18 30 59 999 (Some 3600))
              (mk_datetime 2025 3 2 6 25 1 0 (Some (-18000))))
    as (_ & Hsame & _).
  - repeat split.
  - repeat split.
  - exact Hsame.
Defined.
